(** * Cogni-Docs: the ChromaDB storage adapter

    A shallow embedding of [src/app/storage/chroma-storage.ts] (class
    [ChromaStorage]) and the properties of its metadata shaping, batched
    ingestion, paginated listing, filter translation and search-result
    assembly.

    Conventions of the embedding:
    - a JavaScript number is an IEEE-754 binary64 value, Rocq's primitive
      [float];
    - a JavaScript string is a [string], one [ascii] per code unit (code
      units above 255 are not represented);
    - a plain object used as a record ([Record<string, unknown>]) is a
      finite map [gmap string JsVal]; reading a property that is absent
      gives [VUndefined];
    - a [Map] whose iteration order is observed is an association list in
      insertion order;
    - [async] methods are functions in a state-and-exception monad over the
      adapter's handle cache, the backend, the clock and a log of the
      backend calls issued; a rejected promise is an exception carrying the
      [message] of the error. *)

From Stdlib Require Import Floats Ascii.
From stdpp Require Import gmap strings list sorting pretty.

Set Default Proof Using "Type".
#[local] Set Warnings "-inexact-float".
Local Open Scope string_scope.
Local Open Scope list_scope.
Local Open Scope nat_scope.

(** ** JavaScript values *)

#[local] Set Warnings "-register-all".
Inductive JsVal : Type :=
  | VUndefined
  | VNull
  | VBool (b : bool)
  | VNum (n : float)
  | VStr (s : string)
  | VArr (l : list JsVal).

(** [Record<string, unknown>] *)
Abbreviation Obj := (gmap string JsVal).

(** [o.k] *)
Definition prop (o : Obj) (k : string) : JsVal := default VUndefined (o !! k).

(** The two conversions between numbers and strings that the language
    provides ([Number::toString] and [StringToNumber]) are taken as given. *)
Class NumberConversions := {
  number_to_string : float → string;
  string_to_number : string → float;
}.

(** *** Strings *)

(** White space and line terminators removed by [String.prototype.trim],
    among the code units below 256: TAB, LF, VT, FF, CR, SP, NBSP. *)
Definition is_space (c : ascii) : bool :=
  bool_decide (Ascii.N_of_ascii c ∈ [9; 10; 11; 12; 13; 32; 160]%N).

Definition is_comma (c : ascii) : bool := Ascii.eqb c ","%char.

Fixpoint trimStart (s : string) : string :=
  match s with
  | String c r => if is_space c then trimStart r else s
  | EmptyString => EmptyString
  end.

Fixpoint trimEnd (s : string) : string :=
  match s with
  | String c r =>
      match trimEnd r with
      | EmptyString => if is_space c then EmptyString else String c EmptyString
      | r' => String c r'
      end
  | EmptyString => EmptyString
  end.

(** [s.trim()] *)
Definition trim (s : string) : string := trimEnd (trimStart s).

(** [s.split(",")]: the pieces between the commas; the empty string gives
    one empty piece. *)
Fixpoint split_comma (s : string) : list string :=
  match s with
  | EmptyString => [EmptyString]
  | String c r =>
      if is_comma c then EmptyString :: split_comma r
      else match split_comma r with
           | p :: ps => String c p :: ps
           | [] => [String c EmptyString]
           end
  end.

(** [parts.join(sep)] on strings *)
Fixpoint join_strings (sep : string) (parts : list string) : string :=
  match parts with
  | [] => ""
  | [p] => p
  | p :: ps => p +:+ sep +:+ join_strings sep ps
  end.

Definition nonempty (s : string) : bool :=
  match s with EmptyString => false | String _ _ => true end.

(** *** Conversions and operators *)

Definition is_nan (n : float) : bool := negb (PrimFloat.eqb n n).

(** [ToBoolean] on a number: false for [+0], [-0] and [NaN]. *)
Definition number_truthy (n : float) : bool :=
  negb (PrimFloat.eqb n 0) && negb (is_nan n).

(** [ToBoolean] *)
Definition truthy (v : JsVal) : bool :=
  match v with
  | VUndefined | VNull => false
  | VBool b => b
  | VNum n => number_truthy n
  | VStr s => nonempty s
  | VArr _ => true
  end.

(** [a || b] *)
Definition js_or (a b : JsVal) : JsVal := if truthy a then a else b.

(** [a ?? b] *)
Definition nullish (a b : JsVal) : JsVal :=
  match a with VUndefined | VNull => b | _ => a end.

(** [typeof v === "number"], [typeof v === "string"], [Array.isArray(v)] *)
Definition is_number (v : JsVal) : bool :=
  match v with VNum _ => true | _ => false end.
Definition is_string (v : JsVal) : bool :=
  match v with VStr _ => true | _ => false end.
Definition isArray (v : JsVal) : bool :=
  match v with VArr _ => true | _ => false end.

Section Conversions.
Context `{!NumberConversions}.

(** [String(v)]; an array is joined with commas, [null] and [undefined]
    elements giving the empty string. *)
Fixpoint to_string (v : JsVal) : string :=
  match v with
  | VUndefined => "undefined"
  | VNull => "null"
  | VBool true => "true"
  | VBool false => "false"
  | VNum n => number_to_string n
  | VStr s => s
  | VArr l =>
      join_strings ","
        (List.map (λ e, match e with
                        | VUndefined | VNull => ""
                        | _ => to_string e
                        end) l)
  end.

(** [l.join(",")] *)
Definition join (l : list JsVal) : string := to_string (VArr l).

(** [Number(v)] *)
Definition to_number (v : JsVal) : float :=
  match v with
  | VUndefined => nan
  | VNull => 0
  | VBool true => 1
  | VBool false => 0
  | VNum n => n
  | VStr s => string_to_number s
  | VArr _ => string_to_number (to_string v)
  end.
End Conversions.

(** ** Metadata shaping (the callback of [metadatas: batch.map(...)] in
    [addDocuments]) *)

Section MetadataCodec.
Context `{!NumberConversions}.

(** [if (cond) metadata.k = v;] *)
Definition assign_if (cond : bool) (k : string) (v : JsVal) (metadata : Obj) : Obj :=
  if cond then <[k := v]> metadata else metadata.

(** [Array.isArray(v) ? v.join(",") : String(v)] *)
Definition csv (v : JsVal) : JsVal :=
  match v with
  | VArr l => VStr (join l)
  | _ => VStr (to_string v)
  end.

(** The [keywords] initialiser:
    [Array.isArray(k) ? k.join(",") : String(k || "")] *)
Definition csv_keywords (v : JsVal) : JsVal :=
  match v with
  | VArr l => VStr (join l)
  | _ => VStr (to_string (js_or v (VStr "")))
  end.

(** [Number(v) || 0] *)
Definition number_or_zero (v : JsVal) : JsVal :=
  js_or (VNum (to_number v)) (VNum 0).

Definition shape_metadata (md : Obj) : Obj :=
  let metadata : Obj :=
    <["chunk_index" := number_or_zero (prop md "chunk_index")]>
    (<["keywords" := csv_keywords (prop md "keywords")]>
    (<["category" := js_or (prop md "category") (VStr "")]>
    (<["document_type" := js_or (prop md "document_type") (VStr "unknown")]>
    (<["source_file" := js_or (prop md "source_file") (VStr "")]> ∅)))) in
  let metadata := assign_if (truthy (prop md "document_id")) "document_id" (prop md "document_id") metadata in
  let metadata := assign_if (truthy (prop md "mime_type")) "mime_type" (prop md "mime_type") metadata in
  let metadata := assign_if (is_number (prop md "size_bytes")) "size_bytes" (prop md "size_bytes") metadata in
  let metadata := assign_if (truthy (prop md "created_at")) "created_at" (prop md "created_at") metadata in
  let metadata := assign_if (is_number (prop md "page_number")) "page_number" (prop md "page_number") metadata in
  let metadata := assign_if (truthy (prop md "section_heading")) "section_heading" (prop md "section_heading") metadata in
  let metadata := assign_if (truthy (prop md "topic_tags")) "topic_tags" (csv (prop md "topic_tags")) metadata in
  let metadata := assign_if (truthy (prop md "code_languages")) "code_languages" (csv (prop md "code_languages")) metadata in
  let metadata := assign_if (truthy (prop md "entities")) "entities" (csv (prop md "entities")) metadata in
  let metadata := assign_if (truthy (prop md "summary")) "summary" (prop md "summary") metadata in
  let metadata := assign_if (is_number (prop md "quality_score")) "quality_score" (prop md "quality_score") metadata in
  metadata.
End MetadataCodec.

(** ** Metadata reconstruction (per hit in [searchDocuments]) *)

(** [s.split(",").map(k => k.trim()).filter(k => k)] *)
Definition split_trim_filter (s : string) : list string :=
  List.filter nonempty (List.map trim (split_comma s)).

(** [if (typeof metadata.k === "string" && metadata.k) metadata.k = ...] *)
Definition reconstruct (k : string) (metadata : Obj) : Obj :=
  match prop metadata k with
  | VStr s =>
      if nonempty s then <[k := VArr (VStr <$> split_trim_filter s)]> metadata
      else metadata
  | _ => metadata
  end.

Definition reconstruct_metadata (metadata : Obj) : Obj :=
  reconstruct "entities"
    (reconstruct "code_languages"
      (reconstruct "topic_tags"
        (reconstruct "keywords" metadata))).

(** ** The backend and the adapter's state *)

(** What a call to the backend settles to. *)
Inductive response (A : Type) : Type :=
  | Resolved (a : A)
  | Rejected (message : string).
Arguments Resolved {A} a.
Arguments Rejected {A} message.

(** What a method of the adapter settles to. [OutOfFuel] is the model's own:
    the bound given to a [for] loop was used up. *)
Inductive outcome (A : Type) : Type :=
  | Ok (a : A)
  | Thrown (message : string)
  | OutOfFuel.
Arguments Ok {A} a.
Arguments Thrown {A} message.
Arguments OutOfFuel {A}.

(** An element of [documents] given to [addDocuments]. *)
Record Document := {
  doc_id : string;
  doc_content : string;
  doc_embedding : list float;
  doc_metadata : Obj;
}.

(** The argument of [collection.add]. *)
Record AddRequest := {
  add_ids : list string;
  add_embeddings : list (list float);
  add_documents : list string;
  add_metadatas : list Obj;
}.

(** The result of [collection.get], of which [metadatas] is read. *)
Record GetResult := { get_metadatas : option (list Obj) }.

(** [{ $in: value }] and [{ $eq: value }] *)
Inductive Predicate : Type :=
  | P_in (value : list JsVal)
  | P_eq (value : JsVal).

(** The argument of [collection.query]. *)
Record QueryRequest := {
  queryEmbeddings : list (list float);
  nResults : nat;
  where_ : option (gmap string Predicate);
  include : list string;
}.

(** The result of [collection.query]: one row per query embedding. *)
Record QueryResult := {
  q_ids : list (list string);
  q_documents : option (list (list (option string)));
  q_metadatas : option (list (list (option Obj)));
  q_distances : option (list (list (option float)));
}.

Record ListedDocument := {
  ld_id : string;
  ld_source_file : string;
  ld_mime_type : string;
  ld_size_bytes : float;
  ld_created_at : string;
}.

Record SearchResult := {
  sr_id : string;
  sr_content : string;
  sr_metadata : Obj;
  sr_similarity : float;
}.

(** The vector store ([ChromaClient] and its [Collection] handles, type [H])
    as a state machine on [B], and the clock: [toISOString k] is what the
    [k]-th evaluation of [new Date().toISOString()] returns. *)
Class Host (B H : Type) := {
  client_getCollection : string → B → B * response H;
  collection_count : H → B → B * response nat;
  collection_get : H → nat → nat → B → B * response (option GetResult);
  collection_add : H → AddRequest → B → B * response ();
  collection_query : H → QueryRequest → B → B * response QueryResult;
  toISOString : nat → string;
}.

(** A call made to the backend, with what it settled to. *)
Inductive Event (H : Type) : Type :=
  | EvGetCollection (name : string) (r : response H)
  | EvCount (c : H) (r : response nat)
  | EvGet (c : H) (limit offset : nat) (r : response (option GetResult))
  | EvAdd (c : H) (req : AddRequest) (r : response ())
  | EvQuery (c : H) (req : QueryRequest) (r : response QueryResult).
Arguments EvGetCollection {H} name r.
Arguments EvCount {H} c r.
Arguments EvGet {H} c limit offset r.
Arguments EvAdd {H} c req r.
Arguments EvQuery {H} c req r.

(** [collections] is the private handle cache of [ChromaStorage]; [issued]
    lists the backend calls made so far, oldest first. *)
Record World (B H : Type) := {
  collections : gmap string H;
  backend : B;
  issued : list (Event H);
  clock_reads : nat;
}.
Arguments collections {B H} w.
Arguments backend {B H} w.
Arguments issued {B H} w.
Arguments clock_reads {B H} w.

Definition M (B H A : Type) : Type := World B H → World B H * outcome A.

#[global] Instance M_ret {B H} : MRet (M B H) := λ A a w, (w, Ok a).
#[global] Instance M_bind {B H} : MBind (M B H) := λ A A' f m w,
  match m w with
  | (w', Ok a) => f a w'
  | (w', Thrown message) => (w', Thrown message)
  | (w', OutOfFuel) => (w', OutOfFuel)
  end.

(** [throw new Error(message)] *)
Definition throw {B H A} (message : string) : M B H A := λ w, (w, Thrown message).

Definition out_of_fuel {B H A} : M B H A := λ w, (w, OutOfFuel).

(** [try { body } catch (error) { handler(error.message) }] *)
Definition try_catch {B H A} (body : M B H A) (handler : string → M B H A) : M B H A :=
  λ w, match body w with
       | (w', Thrown message) => handler message w'
       | settled => settled
       end.

(** [await] of a backend call: the backend moves on and the call is logged. *)
Definition await {B H A} (ev : response A → Event H) (op : B → B * response A) : M B H A :=
  λ w, let '(b, r) := op (backend w) in
       ({| collections := collections w; backend := b;
           issued := issued w ++ [ev r]; clock_reads := clock_reads w |},
        match r with Resolved a => Ok a | Rejected message => Thrown message end).

(** ** [Map<string, V>] in insertion order *)

Definition JsMap (V : Type) : Type := list (string * V).

Definition Map_has {V} (k : string) (m : JsMap V) : bool := bool_decide (k ∈ m.*1).

Fixpoint Map_set {V} (k : string) (v : V) (m : JsMap V) : JsMap V :=
  match m with
  | [] => [(k, v)]
  | (k', v') :: m' => if decide (k' = k) then (k, v) :: m' else (k', v') :: Map_set k v m'
  end.

Definition Map_values {V} (m : JsMap V) : list V := m.*2.

(** ** The methods of [ChromaStorage] *)

Section ChromaStorage.
Context {B H : Type} `{!Host B H} `{!NumberConversions}.

Local Abbreviation M := (M B H).

(** [new Date().toISOString()] *)
Definition new_Date_toISOString : M string :=
  λ w, ({| collections := collections w; backend := backend w;
           issued := issued w; clock_reads := S (clock_reads w) |},
        Ok (toISOString (clock_reads w))).

(** [this.collections.set(setId, collection)] *)
Definition collections_set (setId : string) (collection : H) : M () :=
  λ w, ({| collections := <[setId := collection]> (collections w);
           backend := backend w; issued := issued w;
           clock_reads := clock_reads w |}, Ok ()).

(** The opening of every method:
    [let collection = this.collections.get(setId);
     if (!collection) { collection = await this.client.getCollection(...);
                        this.collections.set(setId, collection); }] *)
Definition resolve (setId : string) : M H :=
  λ w, match collections w !! setId with
       | Some collection => (w, Ok collection)
       | None =>
           (collection ← await (EvGetCollection setId) (client_getCollection setId);
            collections_set setId collection;;
            mret collection) w
       end.

(** *** [listDocuments] *)

Definition pageSize : nat := 500.

(** [String(md.document_id ?? "")] *)
Definition docId (md : Obj) : string :=
  to_string (nullish (prop md "document_id") (VStr "")).

(** The body of [for (const md of metadatas)]. *)
Definition visit (md : Obj) (docsById : JsMap ListedDocument) : M (JsMap ListedDocument) :=
  if negb (nonempty (docId md)) || Map_has (docId md) docsById then mret docsById
  else
    created_at ← match prop md "created_at" with
                 | VUndefined | VNull => now ← new_Date_toISOString; mret (VStr now)
                 | v => mret v
                 end;
    let item := {|
      ld_id := docId md;
      ld_source_file := to_string (nullish (prop md "source_file") (VStr "unknown"));
      ld_mime_type := to_string (nullish (prop md "mime_type") (VStr "text/plain"));
      ld_size_bytes := to_number (nullish (prop md "size_bytes") (VNum 0));
      ld_created_at := to_string created_at;
    |} in
    mret (Map_set (docId md) item docsById).

Fixpoint visit_all (metadatas : list Obj) (docsById : JsMap ListedDocument) : M (JsMap ListedDocument) :=
  match metadatas with
  | [] => mret docsById
  | md :: rest => docsById ← visit md docsById; visit_all rest docsById
  end.

(** [for (let offset = 0; offset < total; offset += pageSize)], entered at
    [offset]; [fuel] bounds the number of iterations. *)
Fixpoint list_pages (fuel : nat) (collection : H) (total offset : nat)
    (docsById : JsMap ListedDocument) : M (JsMap ListedDocument) :=
  if decide (offset < total) then
    match fuel with
    | 0 => out_of_fuel
    | S fuel =>
        batch ← await (EvGet collection pageSize offset)
                      (collection_get collection pageSize offset);
        let metadatas := default [] (batch ≫= get_metadatas) in
        docsById ← visit_all metadatas docsById;
        list_pages fuel collection total (offset + pageSize) docsById
    end
  else mret docsById.

Definition listDocuments (setId : string) : M (list ListedDocument) :=
  try_catch
    (collection ← resolve setId;
     total ← await (EvCount collection) (collection_count collection);
     if decide (total = 0) then mret []
     else
       docsById ← list_pages total collection total 0 [];
       mret (Map_values docsById))
    (λ message, throw ("Failed to list documents: " +:+ message)).

(** *** [addDocuments] *)

Definition batchSize : nat := 100.

(** [l.slice(start, stop)] for [0 <= start] *)
Definition slice {A} (start stop : nat) (l : list A) : list A :=
  take (stop - start) (drop start l).

(** The argument built for [collection.add] from one batch. *)
Definition add_request (batch : list Document) : AddRequest := {|
  add_ids := doc_id <$> batch;
  add_embeddings := doc_embedding <$> batch;
  add_documents := doc_content <$> batch;
  add_metadatas := (λ doc, shape_metadata (doc_metadata doc)) <$> batch;
|}.

(** [for (let i = 0; i < documents.length; i += batchSize)], entered at
    [i]; [fuel] bounds the number of iterations. *)
Fixpoint add_batches (fuel : nat) (collection : H) (documents : list Document)
    (i : nat) : M () :=
  if decide (i < length documents) then
    match fuel with
    | 0 => out_of_fuel
    | S fuel =>
        let batch := slice i (i + batchSize) documents in
        await (EvAdd collection (add_request batch))
              (collection_add collection (add_request batch));;
        add_batches fuel collection documents (i + batchSize)
    end
  else mret ().

Definition addDocuments (setId : string) (documents : list Document) : M () :=
  try_catch
    (collection ← resolve setId;
     add_batches (length documents) collection documents 0)
    (λ message, throw ("Failed to add documents: " +:+ message)).

(** *** [searchDocuments] *)

(** [Array.isArray(value) ? { $in: value } : { $eq: value }] *)
Definition predicate_of (value : JsVal) : Predicate :=
  match value with
  | VArr l => P_in l
  | _ => P_eq value
  end.

(** [let whereClause = {}; if (filters) Object.entries(filters).forEach(...)] *)
Definition build_whereClause (filters : option Obj) : gmap string Predicate :=
  match filters with
  | Some filters =>
      foldl (λ whereClause entry, <[entry.1 := predicate_of entry.2]> whereClause)
            ∅ (map_to_list filters)
  | None => ∅
  end.

(** [Object.keys(whereClause).length > 0 ? whereClause : undefined] *)
Definition where_argument (whereClause : gmap string Predicate) : option (gmap string Predicate) :=
  if decide (0 < size whereClause) then Some whereClause else None.

Definition query_request (queryEmbedding : list float) (limit : nat)
    (filters : option Obj) : QueryRequest := {|
  queryEmbeddings := [queryEmbedding];
  nResults := limit;
  where_ := where_argument (build_whereClause filters);
  include := ["documents"; "metadatas"; "distances"];
|}.

(** [results.metadatas?.[0]?.[index]], [results.documents?.[0]?.[index]],
    [results.distances?.[0]?.[index]]: [None] stands for [undefined] and
    [null]. *)
Definition cell {A} (column : option (list (list (option A)))) (index : nat) : option A :=
  rows ← column; row ← rows !! 0; entry ← row !! index; entry.

(** [content || ""] and [distance || 0] *)
Definition content_or_empty (content : option string) : string :=
  match content with
  | Some s => if nonempty s then s else ""
  | None => ""
  end.
Definition distance_or_zero (distance : option float) : float :=
  match distance with
  | Some d => if number_truthy d then d else 0%float
  | None => 0%float
  end.

(** The callback of [results.ids[0]?.map((id, index) => ...)]. *)
Definition hit (results : QueryResult) (index : nat) (id : string) : SearchResult :=
  let metadata := default ∅ (cell (q_metadatas results) index) in
  let metadata := reconstruct_metadata metadata in
  {| sr_id := id;
     sr_content := content_or_empty (cell (q_documents results) index);
     sr_metadata := metadata;
     sr_similarity := (1 - distance_or_zero (cell (q_distances results) index))%float |}.

(** [results.ids[0]?.map(...) || []] *)
Definition hits (results : QueryResult) : list SearchResult :=
  match q_ids results !! 0 with
  | Some ids => imap (hit results) ids
  | None => []
  end.

(** [limit] and [filters] are optional parameters; [limit] defaults to 10. *)
Definition searchDocuments (setId : string) (queryEmbedding : list float)
    (limit : option nat) (filters : option Obj) : M (list SearchResult) :=
  let limit := default 10 limit in
  try_catch
    (collection ← resolve setId;
     let request := query_request queryEmbedding limit filters in
     results ← await (EvQuery collection request) (collection_query collection request);
     mret (hits results))
    (λ message, throw ("Failed to search documents: " +:+ message)).

End ChromaStorage.

(** ** An in-memory backend, to run the methods on examples *)

(** Number conversions for examples whose numbers are small natural numbers,
    written in decimal; they agree with the language on those, on the empty
    string and on [NaN], which is all the examples use, and are arbitrary
    elsewhere. *)
Fixpoint decimal_value (acc : Z) (s : string) : option Z :=
  match s with
  | EmptyString => Some acc
  | String c r =>
      let d := (Z.of_N (Ascii.N_of_ascii c) - 48)%Z in
      if decide (0 ≤ d ≤ 9)%Z then decimal_value (10 * acc + d) r else None
  end.

Definition example_conversions : NumberConversions := {|
  number_to_string n :=
    match Prim2SF n with
    | S754_zero _ => "0"
    | S754_finite false m e => pretty (Z.shiftl (Z.pos m) e)
    | _ => "NaN"
    end;
  string_to_number s :=
    match decimal_value 0 s with
    | Some z => PrimFloat.of_uint63 (Uint63.of_Z z)
    | None => nan
    end;
|}.

(** One collection, named by a string handle: [get] pages through the stored
    metadata, [add] appends, and the [k]-th call of [add] (from 0) is
    rejected when [ms_reject] is [(k, message)]; [query] answers
    [ms_answer]. The clock advances by one second at each reading (the
    examples read it fewer than ten times). *)
Record MemoryStore := {
  ms_metadatas : list Obj;
  ms_adds : nat;
  ms_reject : option (nat * string);
  ms_answer : QueryResult;
}.

Definition memory_add (req : AddRequest) (b : MemoryStore) : MemoryStore * response () :=
  let counted metadatas := {|
    ms_metadatas := metadatas; ms_adds := S (ms_adds b);
    ms_reject := ms_reject b; ms_answer := ms_answer b |} in
  match ms_reject b with
  | Some (k, message) =>
      if decide (k = ms_adds b) then (counted (ms_metadatas b), Rejected message)
      else (counted (ms_metadatas b ++ add_metadatas req), Resolved ())
  | None => (counted (ms_metadatas b ++ add_metadatas req), Resolved ())
  end.

Definition memory_host : Host MemoryStore string := {|
  client_getCollection name b := (b, Resolved name);
  collection_count _ b := (b, Resolved (length (ms_metadatas b)));
  collection_get _ limit offset b :=
    (b, Resolved (Some {| get_metadatas := Some (take limit (drop offset (ms_metadatas b))) |}));
  collection_add _ := memory_add;
  collection_query _ _ b := (b, Resolved (ms_answer b));
  toISOString k := "2025-01-01T00:00:0" +:+ pretty k +:+ ".000Z";
|}.

Definition no_answer : QueryResult :=
  {| q_ids := [[]]; q_documents := Some [[]]; q_metadatas := Some [[]]; q_distances := Some [[]] |}.

Definition fresh_world (b : MemoryStore) : World MemoryStore string :=
  {| collections := ∅; backend := b; issued := []; clock_reads := 0 |}.

Definition empty_store : MemoryStore :=
  {| ms_metadatas := []; ms_adds := 0; ms_reject := None; ms_answer := no_answer |}.

Definition chunk_of (document_id : string) (chunk_index : float) : Obj :=
  <["document_id" := VStr document_id]>
  (<["chunk_index" := VNum chunk_index]>
  (<["source_file" := VStr (document_id +:+ ".md")]> ∅)).


(** ** Vocabulary of the properties *)

(** The fields of a metadata record. *)
Definition required_fields : list string :=
  ["source_file"; "document_type"; "category"; "keywords"; "chunk_index"].
Definition optional_string_fields : list string :=
  ["document_id"; "mime_type"; "created_at"; "section_heading"; "summary"].
Definition optional_number_fields : list string :=
  ["size_bytes"; "page_number"; "quality_score"].
Definition optional_list_fields : list string :=
  ["topic_tags"; "code_languages"; "entities"].
Definition list_fields : list string := "keywords" :: optional_list_fields.
Definition metadata_fields : list string :=
  required_fields ++ optional_string_fields ++ optional_number_fields ++ optional_list_fields.

Definition is_list_field (k : string) : bool :=
  String.eqb "keywords" k || String.eqb "topic_tags" k
  || String.eqb "code_languages" k || String.eqb "entities" k.

(** The value that [reconstruct] leaves in a field holding [v]. *)
Definition rebuild (v : JsVal) : JsVal :=
  match v with
  | VStr s => if nonempty s then VArr (VStr <$> split_trim_filter s) else v
  | _ => v
  end.

Fixpoint has_comma (s : string) : bool :=
  match s with
  | String c r => is_comma c || has_comma r
  | EmptyString => false
  end.

(** A list whose elements, where they are strings, have no comma and are
    not made of white space only. *)
Definition delimiter_free (v : JsVal) : bool :=
  match v with
  | VArr l =>
      forallb (λ e, match e with
                    | VStr s => negb (has_comma s) && nonempty (trim s)
                    | _ => true
                    end) l
  | _ => true
  end.

(** A string that [split], [trim] and [filter] give back as it is: no comma,
    not empty, no white space at either end. *)
Definition clean (s : string) : bool :=
  negb (has_comma s) && nonempty s && String.eqb (trim s) s.

(** A non-empty list of clean strings. *)
Definition clean_list (v : JsVal) : bool :=
  match v with
  | VArr (e :: l) =>
      forallb (λ e, match e with VStr s => clean s | _ => false end) (e :: l)
  | _ => false
  end.

Definition absent (v : JsVal) : bool :=
  match v with VUndefined => true | _ => false end.

Definition is_positive_zero (n : float) : bool :=
  match Prim2SF n with S754_zero false => true | _ => false end.

(** The values of field [k] that shaping followed by reconstruction gives
    back unchanged. *)
Definition reproducible (k : string) (v : JsVal) : bool :=
  if bool_decide (k ∈ ["source_file"; "category"]) then is_string v
  else if bool_decide (k = "document_type") then is_string v && truthy v
  else if bool_decide (k = "keywords") then clean_list v
  else if bool_decide (k = "chunk_index") then
    match v with
    | VNum n => number_truthy n || is_positive_zero n
    | _ => false
    end
  else if bool_decide (k ∈ optional_string_fields) then absent v || is_string v && truthy v
  else if bool_decide (k ∈ optional_number_fields) then absent v || is_number v
  else if bool_decide (k ∈ optional_list_fields) then absent v || clean_list v
  else false.

(** "Present and of the expected type", for an optional scalar field. *)
Definition expected_type (k : string) (v : JsVal) : bool :=
  if bool_decide (k ∈ optional_number_fields) then is_number v else is_string v.

(** Neither [null] nor [undefined]. *)
Definition defined (v : JsVal) : bool :=
  match v with VUndefined | VNull => false | _ => true end.

(** A metadata record as a caller would give it. *)
Definition sample_metadata : Obj :=
  <["keywords" := VArr [VStr "alpha"; VStr "beta"]]>
  (<["topic_tags" := VArr [VStr "storage"]]>
  (<["size_bytes" := VNum 2048]> (chunk_of "doc1" 3))).

(** ** Vocabulary of the properties of the methods *)

Section Vocabulary.
Context {B H : Type} `{!Host B H} `{!NumberConversions}.

(** The entry that [listDocuments] makes from the metadata of a chunk
    when the clock reads [now]. *)
Definition listed_document (md : Obj) (now : string) : ListedDocument := {|
  ld_id := docId md;
  ld_source_file := to_string (nullish (prop md "source_file") (VStr "unknown"));
  ld_mime_type := to_string (nullish (prop md "mime_type") (VStr "text/plain"));
  ld_size_bytes := to_number (nullish (prop md "size_bytes") (VNum 0));
  ld_created_at := to_string (nullish (prop md "created_at") (VStr now));
|}.

(** The metadata that the page fetches among [evs] returned, in order. *)
Definition page_of (ev : Event H) : list Obj :=
  match ev with
  | EvGet _ _ _ (Resolved batch) => default [] (batch ≫= get_metadatas)
  | _ => []
  end.
Definition fetched (evs : list (Event H)) : list Obj := evs ≫= page_of.

Definition is_page_fetch (ev : Event H) : bool :=
  match ev with EvGet _ _ _ _ => true | _ => false end.

(** [md] is at position [p] of [chunks], and no chunk before it has its
    document id. *)
Definition first_seen_at (chunks : list Obj) (p : nat) (md : Obj) : Prop :=
  chunks !! p = Some md ∧
  ∀ q md', q < p → chunks !! q = Some md' → docId md' ≠ docId md.

(** [d] lists the chunk at position [p] of [chunks], which is the first of
    its document, with a clock reading taken between the [t0]-th and the
    [t1]-th. *)
Definition lists_chunk (t0 t1 : nat) (chunks : list Obj) (d : ListedDocument) (p : nat) : Prop :=
  ∃ md t, first_seen_at chunks p md ∧ docId md ≠ "" ∧ t0 ≤ t ≤ t1 ∧
          d = listed_document md (toISOString t).

(** What the loops of [listDocuments] maintain: [docsById] lists, in
    order, the first chunk of every document of [chunks]. *)
Definition tracks (t0 t1 : nat) (chunks : list Obj) (docsById : JsMap ListedDocument) : Prop :=
  ∃ positions,
    StronglySorted lt positions ∧
    Forall2 (λ kd p, kd.1 = ld_id kd.2 ∧ lists_chunk t0 t1 chunks kd.2 p) docsById positions ∧
    ∀ md, md ∈ chunks → docId md ≠ "" → docId md ∈ docsById.*1.

(** [docs] lists, in order of first appearance, the first chunk of every
    document of [chunks], once. *)
Definition tracks_listing (t0 t1 : nat) (chunks : list Obj) (docs : list ListedDocument) : Prop :=
  ∃ positions,
    StronglySorted lt positions ∧
    Forall2 (lists_chunk t0 t1 chunks) docs positions ∧
    (∀ md, md ∈ chunks → docId md ≠ "" → docId md ∈ ld_id <$> docs) ∧
    NoDup (ld_id <$> docs).

(** The calls of [collection.add] among [evs], in order, with what each
    settled to. *)
Definition add_call (ev : Event H) : option (AddRequest * response ()) :=
  match ev with EvAdd _ req r => Some (req, r) | _ => None end.
Definition added (evs : list (Event H)) : list (AddRequest * response ()) :=
  omap add_call evs.

(** The [j]-th batch of [documents], from 0. *)
Definition batch_at (documents : list Document) (j : nat) : list Document :=
  slice (j * batchSize) (j * batchSize + batchSize) documents.

(** The calls of [add] for the first [n] batches of [documents], each
    resolved. *)
Definition resolved_calls (documents : list Document) (n : nat) : list (AddRequest * response ()) :=
  (λ j, (add_request (batch_at documents j), Resolved ())) <$> seq 0 n.

(** The four arrays of a request are parallel. *)
Definition parallel (req : AddRequest) : Prop :=
  length (add_embeddings req) = length (add_ids req) ∧
  length (add_documents req) = length (add_ids req) ∧
  length (add_metadatas req) = length (add_ids req).

(** The calls of [collection.query] among [evs], in order. *)
Definition query_call (ev : Event H) : option QueryRequest :=
  match ev with EvQuery _ req _ => Some req | _ => None end.
Definition queried (evs : list (Event H)) : list QueryRequest := omap query_call evs.
End Vocabulary.

(** [n / d], rounded up *)
Definition ceil_div (n d : nat) : nat := (n + d - 1) / d.

(** Outside the interval from 0 to 1. *)
Definition outside_unit (x : float) : bool := PrimFloat.ltb x 0 || PrimFloat.ltb 1 x.

(** A response to a query with the given distances and nothing else. *)
Definition answer_with_distances (distances : list (option float)) : QueryResult := {|
  q_ids := [imap (λ index _, "chunk-" +:+ pretty index) distances];
  q_documents := None;
  q_metadatas := None;
  q_distances := Some [distances];
|}.

(** ** Data of the examples *)

(** A set whose chunks belong to three documents; one chunk has no
    document id, and the chunk of the third document has nothing else. *)
Definition manuals_store : MemoryStore := {|
  ms_metadatas := [chunk_of "doc1" 0; chunk_of "doc2" 0; chunk_of "doc1" 1;
                   <["source_file" := VStr "stray.md"]> ∅; chunk_of "doc2" 1;
                   <["document_id" := VStr "doc3"]> ∅; chunk_of "doc1" 2];
  ms_adds := 0;
  ms_reject := None;
  ms_answer := no_answer;
|}.

(** 250 chunks to ingest. *)
Definition sample_documents : list Document :=
  (λ i, {| doc_id := "chunk-" +:+ pretty i;
           doc_content := "text";
           doc_embedding := [0.5%float];
           doc_metadata := sample_metadata |}) <$> seq 0 250.

(** A store that rejects the call of [add] number [k], from 0. *)
Definition rejecting_store (k : nat) : MemoryStore := {|
  ms_metadatas := [];
  ms_adds := 0;
  ms_reject := Some (k, "quota exceeded");
  ms_answer := no_answer;
|}.

(** A store that answers every query with [answer]. *)
Definition answering_store (answer : QueryResult) : MemoryStore := {|
  ms_metadatas := [];
  ms_adds := 0;
  ms_reject := None;
  ms_answer := answer;
|}.

(** An answer with two hits, the second without content or distance. *)
Definition two_hits : QueryResult := {|
  q_ids := [["chunk-0"; "chunk-1"]];
  q_documents := Some [[Some "text"; None]];
  q_metadatas := Some [[Some (<["keywords" := VStr "alpha, beta"]> ∅); None]];
  q_distances := Some [[Some 0.2%float; None]];
|}.


(** ** The other methods of [ChromaStorage] *)

(** What [healthCheck], [createDocumentSet], [getDocumentSet],
    [listDocumentSets], [deleteDocument] and [deleteDocumentSet] need of the
    backend beyond [Host]: the calls of the client and of a collection, the
    [name] and [metadata] that a handle carries, and [DateNow k], what the
    [k]-th reading of the clock gives when it is made by [Date.now()]. The
    calls of this class are not entered in [issued]. *)
Class Lifecycle (B H : Type) := {
  client_heartbeat : B → B * response ();
  client_createCollection : string → Obj → B → B * response H;
  client_listCollections : B → B * response (list H);
  client_deleteCollection : string → B → B * response ();
  collection_delete : H → list string → B → B * response ();
  collection_name : H → string;
  collection_metadata : H → option Obj;
  DateNow : nat → float;
}.

(** A [Date], by how it was made: [new Date()] at a reading of the clock,
    or [new Date(value)]. *)
Inductive JsDate : Type :=
  | Date_at (reading : nat)
  | Date_of (value : JsVal).

Record DocumentSet := {
  ds_id : string;
  ds_name : string;
  ds_description : JsVal;
  ds_created_at : JsDate;
  ds_document_count : nat;
}.

(** [await] of a backend call of [Lifecycle]. *)
Definition perform {B H A} (op : B → B * response A) : M B H A :=
  λ w, let '(b, r) := op (backend w) in
       ({| collections := collections w; backend := b;
           issued := issued w; clock_reads := clock_reads w |},
        match r with Resolved a => Ok a | Rejected message => Thrown message end).

(** [description || ""], for the optional parameter [description]. *)
Definition description_or_empty (description : option string) : string :=
  match description with
  | Some s => if nonempty s then s else ""
  | None => ""
  end.

Section Lifecycle.
Context {B H : Type} `{!Host B H} `{!Lifecycle B H} `{!NumberConversions}.

Local Abbreviation M := (M B H).

(** [new Date()] *)
Definition new_Date : M JsDate :=
  λ w, ({| collections := collections w; backend := backend w;
           issued := issued w; clock_reads := S (clock_reads w) |},
        Ok (Date_at (clock_reads w))).

(** [Date.now()] *)
Definition Date_now : M float :=
  λ w, ({| collections := collections w; backend := backend w;
           issued := issued w; clock_reads := S (clock_reads w) |},
        Ok (DateNow (clock_reads w))).

(** [this.collections.delete(setId)] *)
Definition collections_delete (setId : string) : M () :=
  λ w, ({| collections := delete setId (collections w);
           backend := backend w; issued := issued w;
           clock_reads := clock_reads w |}, Ok ()).

(** [value || Date.now()] *)
Definition or_Date_now (value : JsVal) : M JsVal :=
  if truthy value then mret value else now ← Date_now; mret (VNum now).

(** The [DocumentSet] made from a handle and the count of its collection:
    [{ id, name, description: (metadata?.description as string) || "",
       created_at: new Date((metadata?.created_at as string) || Date.now()),
       document_count: count }]. *)
Definition document_set_of (name : string) (collection : H) (count : nat) : M DocumentSet :=
  let metadata := default ∅ (collection_metadata collection) in
  let description := js_or (prop metadata "description") (VStr "") in
  created_at ← or_Date_now (prop metadata "created_at");
  mret {| ds_id := name; ds_name := name; ds_description := description;
          ds_created_at := Date_of created_at; ds_document_count := count |}.

(** *** [healthCheck] *)

Definition healthCheck : M bool :=
  try_catch (perform client_heartbeat;; mret true) (λ _, mret false).

(** *** [createDocumentSet] *)

Definition createDocumentSet (name : string) (description : option string) : M DocumentSet :=
  try_catch
    (created_at ← new_Date_toISOString;
     collection ← perform (client_createCollection name
                   (<["created_at" := VStr created_at]>
                    (<["description" := VStr (description_or_empty description)]> ∅)));
     collections_set name collection;;
     now ← new_Date;
     mret {| ds_id := name; ds_name := name;
             ds_description := VStr (description_or_empty description);
             ds_created_at := now; ds_document_count := 0 |})
    (λ message, throw ("Failed to create document set: " +:+ message)).

(** *** [getDocumentSet]

    The handle that [getCollection] resolves to is an object, so the test
    [if (!collection) return null] never succeeds. *)

Definition getDocumentSet (setId : string) : M (option DocumentSet) :=
  try_catch
    (collection ← await (EvGetCollection setId) (client_getCollection setId);
     count ← await (EvCount collection) (collection_count collection);
     set ← document_set_of setId collection count;
     mret (Some set))
    (λ _, mret None).

(** *** [listDocumentSets]

    [collections.map] runs every callback up to its [await col.count()]:
    the counts are asked for in the order of [collections], whatever they
    settle to. The callbacks whose count resolved then build their
    [DocumentSet]. [Promise.all] rejects when a count was rejected; the
    first one of the list is taken here. The promise is returned without
    [await], so its rejection does not reach [catch]. *)

Fixpoint count_each (cols : list H) : M (list (H * response nat)) :=
  match cols with
  | [] => mret []
  | col :: cols =>
      settled ← try_catch
                  (count ← await (EvCount col) (collection_count col);
                   mret (Resolved count))
                  (λ message, mret (Rejected message));
      rest ← count_each cols;
      mret ((col, settled) :: rest)
  end.

Fixpoint build_each (counted : list (H * response nat)) : M (list (response DocumentSet)) :=
  match counted with
  | [] => mret []
  | (col, Resolved count) :: counted =>
      set ← document_set_of (collection_name col) col count;
      rest ← build_each counted;
      mret (Resolved set :: rest)
  | (col, Rejected message) :: counted =>
      rest ← build_each counted;
      mret (Rejected message :: rest)
  end.

(** What [Promise.all] settles to. *)
Fixpoint Promise_all {A} (settled : list (response A)) : M (list A) :=
  match settled with
  | [] => mret []
  | Resolved a :: settled => rest ← Promise_all settled; mret (a :: rest)
  | Rejected message :: _ => throw message
  end.

Definition listDocumentSets : M (list DocumentSet) :=
  cols ← try_catch (perform client_listCollections)
                   (λ message, throw ("Failed to list document sets: " +:+ message));
  counted ← count_each cols;
  built ← build_each counted;
  Promise_all built.

(** *** [deleteDocument] *)

Definition deleteDocument (setId documentId : string) : M () :=
  try_catch
    (collection ← resolve setId;
     perform (collection_delete collection [documentId]))
    (λ message, throw ("Failed to delete document: " +:+ message)).

(** *** [deleteDocumentSet] *)

Definition deleteDocumentSet (setId : string) : M () :=
  try_catch
    (perform (client_deleteCollection setId);;
     collections_delete setId)
    (λ message, throw ("Failed to delete document set: " +:+ message)).

(** *** [cleanup] *)

Definition cleanup : M () := mret ().
End Lifecycle.

(** ** A registry of collections in memory, for the examples of these methods *)

(** A handle carries the name and the metadata of its collection. *)
Record Handle := { h_name : string; h_metadata : option Obj }.

(** A collection: its handle and the ids and metadata of its records. *)
Record Stored := { st_handle : Handle; st_records : list (string * Obj) }.

(** The collections, in the order of their creation; when [reg_down], every
    call is rejected. *)
Record Registry := { reg_sets : list Stored; reg_down : bool }.

Definition find_set (name : string) (b : Registry) : option Stored :=
  List.find (λ st, String.eqb (h_name (st_handle st)) name) (reg_sets b).

Definition update_set (name : string) (f : Stored → Stored) (b : Registry) : Registry :=
  {| reg_sets := (λ st, if String.eqb (h_name (st_handle st)) name then f st else st)
                   <$> reg_sets b;
     reg_down := reg_down b |}.

(** A call on the registry: rejected when it is down. *)
Definition when_up {A} (b : Registry) (answer : Registry * response A) : Registry * response A :=
  if reg_down b then (b, Rejected "connection refused") else answer.

(** A call on the collection of a handle: rejected when it is gone. *)
Definition on_set {A} (h : Handle) (b : Registry) (answer : Stored → Registry * response A)
    : Registry * response A :=
  when_up b match find_set (h_name h) b with
            | Some st => answer st
            | None => (b, Rejected ("Collection " +:+ h_name h +:+ " does not exist"))
            end.

Definition registry_host : Host Registry Handle := {|
  client_getCollection name b :=
    when_up b match find_set name b with
              | Some st => (b, Resolved (st_handle st))
              | None => (b, Rejected ("Collection " +:+ name +:+ " does not exist"))
              end;
  collection_count h b := on_set h b (λ st, (b, Resolved (length (st_records st))));
  collection_get h limit offset b :=
    on_set h b (λ st, (b, Resolved (Some {|
      get_metadatas := Some (take limit (drop offset (st_records st).*2)) |})));
  collection_add h req b :=
    on_set h b (λ _,
      (update_set (h_name h)
         (λ st, {| st_handle := st_handle st;
                   st_records := st_records st ++ zip (add_ids req) (add_metadatas req) |}) b,
       Resolved ()));
  collection_query h _ b := on_set h b (λ _, (b, Resolved no_answer));
  toISOString k := "2025-01-01T00:00:0" +:+ pretty k +:+ ".000Z";
|}.

Definition registry_lifecycle : Lifecycle Registry Handle := {|
  client_heartbeat b := when_up b (b, Resolved ());
  client_createCollection name metadata b :=
    when_up b match find_set name b with
              | Some _ => (b, Rejected ("Collection " +:+ name +:+ " already exists"))
              | None =>
                  let h := {| h_name := name; h_metadata := Some metadata |} in
                  ({| reg_sets := reg_sets b ++ [{| st_handle := h; st_records := [] |}];
                      reg_down := reg_down b |}, Resolved h)
              end;
  client_listCollections b := when_up b (b, Resolved (st_handle <$> reg_sets b));
  client_deleteCollection name b :=
    when_up b match find_set name b with
              | Some _ =>
                  ({| reg_sets := List.filter
                                    (λ st, negb (String.eqb (h_name (st_handle st)) name))
                                    (reg_sets b);
                      reg_down := reg_down b |}, Resolved ())
              | None => (b, Rejected ("Collection " +:+ name +:+ " does not exist"))
              end;
  collection_delete h ids b :=
    on_set h b (λ _,
      (update_set (h_name h)
         (λ st, {| st_handle := st_handle st;
                   st_records := List.filter (λ record, negb (bool_decide (record.1 ∈ ids)))
                                             (st_records st) |}) b,
       Resolved ()));
  collection_name := h_name;
  collection_metadata := h_metadata;
  DateNow k := PrimFloat.of_uint63 (Uint63.of_Z (1735689600000 + 1000 * Z.of_nat k));
|}.

Definition registry_world (b : Registry) : World Registry Handle :=
  {| collections := ∅; backend := b; issued := []; clock_reads := 0 |}.

Definition empty_registry : Registry := {| reg_sets := []; reg_down := false |}.

(** A registry with the sets "manuals", of five records in two documents,
    and "notes", which is empty and has no metadata. *)
Definition two_sets : Registry := {|
  reg_sets := [
    {| st_handle := {| h_name := "manuals";
                       h_metadata := Some (<["description" := VStr "User manuals"]>
                                           (<["created_at" := VStr "2024-06-01T12:00:00.000Z"]> ∅)) |};
       st_records := [("c1", chunk_of "doc1" 0); ("c2", chunk_of "doc1" 1);
                      ("c3", chunk_of "doc1" 2); ("c4", chunk_of "doc2" 0);
                      ("c5", chunk_of "doc2" 1)] |};
    {| st_handle := {| h_name := "notes"; h_metadata := None |}; st_records := [] |} ];
  reg_down := false;
|}.

Definition registry_down : Registry := {| reg_sets := reg_sets two_sets; reg_down := true |}.

(** ** Vocabulary of the further properties *)

Section MoreVocabulary.
Context {B H : Type} `{!Host B H} `{!Lifecycle B H} `{!NumberConversions}.

(** [set] is the set of the collection [col] when [count] is its count:
    the name of the collection as id and name, the count, and the stored
    description or "". *)
Definition describes (set : DocumentSet) (col : H) (count : nat) : Prop :=
  ds_id set = collection_name col ∧ ds_name set = collection_name col ∧
  ds_document_count set = count ∧
  ds_description set =
    js_or (prop (default ∅ (collection_metadata col)) "description") (VStr "").

(** What the callback of [listDocumentSets] for [cr.1] settles to, when
    the count of [cr.1] settled to [cr.2]. *)
Definition built_for (b : response DocumentSet) (cr : H * response nat) : Prop :=
  match cr.2 with
  | Resolved count => ∃ set, b = Resolved set ∧ describes set cr.1 count
  | Rejected message => b = Rejected message
  end.

(** The message with which the call of an event was rejected. *)
Definition rejection (ev : Event H) : option string :=
  match ev with
  | EvGetCollection _ (Rejected message) | EvCount _ (Rejected message)
  | EvGet _ _ _ (Rejected message) | EvAdd _ _ (Rejected message)
  | EvQuery _ _ (Rejected message) => Some message
  | _ => None
  end.

Definition resolved (ev : Event H) : bool :=
  match rejection ev with Some _ => false | None => true end.

(** The limit and offset of the page fetches among [evs], in order. *)
Definition page_request (ev : Event H) : option (nat * nat) :=
  match ev with EvGet _ limit offset _ => Some (limit, offset) | _ => None end.
Definition page_requests (evs : list (Event H)) : list (nat * nat) :=
  omap page_request evs.

(** A call made on the collection handle [c]. *)
Definition on_handle (c : H) (ev : Event H) : Prop :=
  match ev with
  | EvGetCollection _ _ => False
  | EvCount c' _ | EvGet c' _ _ _ | EvAdd c' _ _ | EvQuery c' _ _ => c' = c
  end.

(** A run from [w] to [w'] that made the calls [evs] and settled to [r]
    used one handle for [setId]: the cached one, without asking for it; or
    the one it asked for first and then cached; and when asking failed, it
    made no other call and failed with [prefix] before the message. *)
Definition uses_one_handle {A} (setId prefix : string) (w w' : World B H)
    (evs : list (Event H)) (r : outcome A) : Prop :=
  match collections w !! setId with
  | Some c => collections w' = collections w ∧ Forall (on_handle c) evs
  | None =>
      ∃ resp evs',
        evs = EvGetCollection setId resp :: evs' ∧
        match resp with
        | Resolved c =>
            collections w' = <[setId := c]> (collections w) ∧ Forall (on_handle c) evs'
        | Rejected message =>
            collections w' = collections w ∧ evs' = [] ∧ r = Thrown (prefix +:+ message)
        end
  end.

(** A run that made the calls [evs] and settled to [r] stopped at the
    first call that was rejected, and failed with [prefix] before its
    message; it succeeded when no call was rejected. *)
Definition fails_fast {A} (prefix : string) (evs : list (Event H)) (r : outcome A) : Prop :=
  match r with
  | Ok _ => Forall (λ ev, resolved ev = true) evs
  | Thrown x =>
      ∃ evs0 ev message,
        evs = evs0 ++ [ev] ∧ Forall (λ ev, resolved ev = true) evs0 ∧
        rejection ev = Some message ∧ x = prefix +:+ message
  | OutOfFuel => False
  end.
End MoreVocabulary.

(** ** Tactics *)

(** Cases of a membership in a list given by its elements. *)
Ltac fields H :=
  repeat (apply elem_of_cons in H as [->|H]); [..| by apply elem_of_nil in H].

(** Reads a literal field of shaped or reconstructed metadata, given the
    two lemmas that describe those reads. *)
Ltac simplify_lookups reconstructed shaped :=
  rewrite ?reconstructed, ?shaped;
  cbv [is_list_field String.eqb Ascii.eqb Bool.eqb orb];
  rewrite ?andb_false_r, ?andb_true_r; cbv iota.

(** * Properties *)

(** ** Reading properties of shaped and reconstructed metadata *)

Lemma lookup_insert_eqb (o : Obj) k v k' :
  <[k := v]> o !! k' = if String.eqb k k' then Some v else o !! k'.
Proof.
  destruct (String.eqb_spec k k') as [->|Hne].
  - by rewrite lookup_insert_eq.
  - by rewrite lookup_insert_ne.
Qed.

Lemma lookup_assign_if c (o : Obj) k v k' :
  assign_if c k v o !! k' = if c && String.eqb k k' then Some v else o !! k'.
Proof. destruct c; simpl; [apply lookup_insert_eqb | done]. Qed.

Lemma lookup_reconstruct k (o : Obj) k' :
  reconstruct k o !! k' = if String.eqb k k' then rebuild <$> o !! k else o !! k'.
Proof.
  unfold reconstruct, prop.
  destruct (String.eqb_spec k k') as [<-|Hne].
  - destruct (o !! k) as [[| | | |s|]|] eqn:E; simpl; rewrite ?E; try done.
    destruct (nonempty s); simpl; [by rewrite lookup_insert_eq | done].
  - destruct (o !! k) as [[| | | |s|]|]; simpl; try done.
    destruct (nonempty s); [by rewrite lookup_insert_ne | done].
Qed.

Lemma prop_lookup (o : Obj) k v : o !! k = Some v → prop o k = v.
Proof. unfold prop. by intros ->. Qed.

Lemma lookup_reconstruct_metadata (o : Obj) k :
  reconstruct_metadata o !! k = if is_list_field k then rebuild <$> o !! k else o !! k.
Proof.
  unfold reconstruct_metadata, is_list_field. rewrite !lookup_reconstruct.
  destruct (String.eqb_spec "entities" k) as [<-|_];
    [|destruct (String.eqb_spec "code_languages" k) as [<-|_];
      [|destruct (String.eqb_spec "topic_tags" k) as [<-|_];
        [|destruct (String.eqb_spec "keywords" k) as [<-|_]]]].
  all: cbv [String.eqb Ascii.eqb Bool.eqb orb]; done.
Qed.

Lemma lookup_shape `{!NumberConversions} md k :
  shape_metadata md !! k =
    if is_number (prop md "quality_score") && String.eqb "quality_score" k
    then Some (prop md "quality_score")
    else if truthy (prop md "summary") && String.eqb "summary" k
    then Some (prop md "summary")
    else if truthy (prop md "entities") && String.eqb "entities" k
    then Some (csv (prop md "entities"))
    else if truthy (prop md "code_languages") && String.eqb "code_languages" k
    then Some (csv (prop md "code_languages"))
    else if truthy (prop md "topic_tags") && String.eqb "topic_tags" k
    then Some (csv (prop md "topic_tags"))
    else if truthy (prop md "section_heading") && String.eqb "section_heading" k
    then Some (prop md "section_heading")
    else if is_number (prop md "page_number") && String.eqb "page_number" k
    then Some (prop md "page_number")
    else if truthy (prop md "created_at") && String.eqb "created_at" k
    then Some (prop md "created_at")
    else if is_number (prop md "size_bytes") && String.eqb "size_bytes" k
    then Some (prop md "size_bytes")
    else if truthy (prop md "mime_type") && String.eqb "mime_type" k
    then Some (prop md "mime_type")
    else if truthy (prop md "document_id") && String.eqb "document_id" k
    then Some (prop md "document_id")
    else if String.eqb "chunk_index" k
    then Some (number_or_zero (prop md "chunk_index"))
    else if String.eqb "keywords" k
    then Some (csv_keywords (prop md "keywords"))
    else if String.eqb "category" k
    then Some (js_or (prop md "category") (VStr ""))
    else if String.eqb "document_type" k
    then Some (js_or (prop md "document_type") (VStr "unknown"))
    else if String.eqb "source_file" k
    then Some (js_or (prop md "source_file") (VStr ""))
    else None.
Proof.
  unfold shape_metadata.
  by rewrite !lookup_assign_if, !lookup_insert_eqb, lookup_empty.
Qed.

(** ** Strings: [join], [split], [trim] *)

Lemma split_comma_not_nil s : split_comma s ≠ [].
Proof. destruct s as [|c r]; simpl; [done|]. destruct (is_comma c); [done|]. by destruct (split_comma r). Qed.

Lemma split_comma_no_comma s : has_comma s = false → split_comma s = [s].
Proof.
  induction s as [|c r IH]; simpl; [done|].
  intros [Hc Hr]%orb_false_elim. rewrite Hc, (IH Hr). done.
Qed.

Lemma split_comma_app s rest :
  has_comma s = false →
  split_comma (s +:+ "," +:+ rest) = s :: split_comma rest.
Proof.
  induction s as [|c r IH]; simpl; [done|].
  intros [Hc Hr]%orb_false_elim. rewrite Hc. simpl in IH. by rewrite (IH Hr).
Qed.

Lemma split_join l :
  l ≠ [] → Forall (λ s, has_comma s = false) l →
  split_comma (join_strings "," l) = l.
Proof.
  intros Hl Hall. induction Hall as [|s l Hs Hall IH]; [done|].
  destruct l as [|s' l]; simpl.
  - by apply split_comma_no_comma.
  - rewrite split_comma_app by done. f_equal. by apply IH.
Qed.

Lemma nonempty_join s l : nonempty s = true → nonempty (join_strings "," (s :: l)) = true.
Proof. destruct s; [done|]. by destruct l. Qed.

Section Codec.
Context `{!NumberConversions}.

Lemma join_of_strings l : join (VStr <$> l) = join_strings "," l.
Proof.
  unfold join. simpl. f_equal. induction l as [|s l IH]; [done|]. simpl. by f_equal.
Qed.

Lemma clean_elements_inv (vs : list JsVal) :
  forallb (λ e, match e with VStr s => clean s | _ => false end) vs = true →
  ∃ l, vs = VStr <$> l ∧ Forall (λ s, clean s = true) l.
Proof.
  induction vs as [|e vs IH]; simpl.
  - by exists [].
  - intros [He Hvs]%andb_true_iff. destruct (IH Hvs) as (l & -> & Hl).
    destruct e as [| | | |s|]; try done. by exists (s :: l); split; [|constructor].
Qed.

Lemma clean_list_inv v :
  clean_list v = true →
  ∃ l, v = VArr (VStr <$> l) ∧ l ≠ [] ∧ Forall (λ s, clean s = true) l.
Proof.
  destruct v as [| | | | |[|e vs]]; try done. unfold clean_list.
  intros (l & Hl & Hall)%clean_elements_inv. exists l. rewrite Hl.
  split; [done|]. split; [|done]. by destruct l.
Qed.

Lemma split_trim_filter_clean l :
  l ≠ [] → Forall (λ s, clean s = true) l →
  split_trim_filter (join_strings "," l) = l.
Proof.
  intros Hl Hall. unfold split_trim_filter. rewrite split_join; [|done|].
  - induction Hall as [|s l Hs Hall IH]; [done|]. simpl.
    unfold clean in Hs. apply andb_true_iff in Hs as [[_ Hn]%andb_true_iff Ht].
    apply String.eqb_eq in Ht. rewrite Ht, Hn. f_equal.
    destruct l; [done|]. by apply IH.
  - eapply Forall_impl; [done|]. intros s [[Hs _]%andb_true_iff _]%andb_true_iff.
    by apply negb_true_iff.
Qed.

Lemma rebuild_csv_clean v : clean_list v = true → rebuild (csv v) = v.
Proof.
  intros (l & -> & Hl & Hall)%clean_list_inv. simpl csv. rewrite join_of_strings.
  unfold rebuild. destruct l as [|s l]; [done|].
  rewrite nonempty_join.
  - by rewrite split_trim_filter_clean.
  - apply Forall_cons in Hall as [Hs _]. unfold clean in Hs.
    by apply andb_true_iff in Hs as [[_ Hn]%andb_true_iff _].
Qed.

Lemma truthy_clean_list v : clean_list v = true → truthy v = true.
Proof. by destruct v. Qed.

Lemma positive_zero n : is_positive_zero n = true → n = 0%float.
Proof.
  unfold is_positive_zero. intros Hn. apply Prim2SF_inj.
  destruct (Prim2SF n) as [[]| | |]; done.
Qed.

(** C7, as amended: an optional string field is in the shaped metadata
    exactly when its value is truthy, an optional numeric field exactly
    when its value is a number; the value is stored as it is; and no
    value of the shaped metadata is [null] or [undefined]. *)
Theorem optional_fields_follow_their_guards md :
  Forall (λ k, shape_metadata md !! k =
               if truthy (prop md k) then Some (prop md k) else None)
         optional_string_fields ∧
  Forall (λ k, shape_metadata md !! k =
               if is_number (prop md k) then Some (prop md k) else None)
         optional_number_fields ∧
  map_Forall (λ _ v, defined v = true) (shape_metadata md).
Proof.
  split_and!.
  1, 2: repeat constructor; by (simplify_lookups lookup_reconstruct_metadata lookup_shape).
  assert (Hor : ∀ a s, defined (js_or a (VStr s)) = true).
  { intros a s. unfold js_or. destruct (truthy a) eqn:Ha; [by destruct a | done]. }
  assert (Hif : ∀ c k v (o : Obj), (c = true → defined v = true) →
            map_Forall (λ _ v, defined v = true) o →
            map_Forall (λ _ v, defined v = true) (assign_if c k v o)).
  { intros [] k v o Hv Ho; simpl; [|done]. apply map_Forall_insert_2; auto. }
  unfold shape_metadata.
  repeat (apply Hif;
    [intros Hc; match goal with |- context [prop md ?k] => by destruct (prop md k) end|]).
  repeat (apply map_Forall_insert_2; [first [ apply Hor | idtac ] |]).
  - unfold number_or_zero, js_or. by destruct (truthy _).
  - by destruct (prop md "keywords").
  - apply map_Forall_empty.
Qed.

(** C9: a list field holding the empty list is stored as the empty
    string and reads back as the empty string; and reconstruction leaves a
    stored empty string as it is. *)
Theorem empty_list_reads_back_as_empty_string md (stored : Obj) k :
  k ∈ list_fields →
  (prop md k = VArr [] →
     shape_metadata md !! k = Some (VStr "") ∧
     reconstruct_metadata (shape_metadata md) !! k = Some (VStr "")) ∧
  (stored !! k = Some (VStr "") →
     reconstruct_metadata stored !! k = Some (VStr "")).
Proof.
  intros Hk. unfold list_fields, optional_list_fields in Hk. fields Hk.
  all: split; [intros Hmd; split | intros Hs].
  all: (simplify_lookups lookup_reconstruct_metadata lookup_shape); rewrite ?Hmd, ?Hs; done.
Qed.

(** C1, as amended: shaping followed by reconstruction gives back the
    value of every field that holds a reproducible value: any string for
    [source_file] and [category]; a non-empty string for [document_type]
    and, when present, for the optional string fields; a number other than
    [NaN] and [-0] for [chunk_index]; a number, when present, for the
    optional numeric fields; and for [keywords] and, when present, the
    other list fields, a non-empty list of non-empty strings that have no
    comma and no white space at either end. *)
Theorem reproducible_fields_round_trip md k :
  reproducible k (prop md k) = true →
  prop (reconstruct_metadata (shape_metadata md)) k = prop md k.
Proof.
  unfold reproducible, optional_string_fields, optional_number_fields, optional_list_fields.
  repeat case_bool_decide; try done;
    repeat match goal with H : _ ∈ _ |- _ => fields H | H : k = _ |- _ => subst k end.
  all: intros Hv; unfold prop at 1; (simplify_lookups lookup_reconstruct_metadata lookup_shape).
  all: try (destruct (prop md _) as [| | | |s|]; try done; by destruct s).
  - simpl. rewrite <- (rebuild_csv_clean _ Hv) at 2. by destruct (prop md "keywords").
  - destruct (prop md "chunk_index") as [| | |n| |]; try done. simpl.
    unfold number_or_zero, js_or. simpl.
    destruct (number_truthy n); [done|]. by rewrite (positive_zero n).
  - destruct (absent (prop md "topic_tags")) eqn:Ha; [by destruct (prop md "topic_tags")|].
    simpl in Hv. rewrite (truthy_clean_list _ Hv). simpl. by apply rebuild_csv_clean.
  - destruct (absent (prop md "code_languages")) eqn:Ha; [by destruct (prop md "code_languages")|].
    simpl in Hv. rewrite (truthy_clean_list _ Hv). simpl. by apply rebuild_csv_clean.
  - destruct (absent (prop md "entities")) eqn:Ha; [by destruct (prop md "entities")|].
    simpl in Hv. rewrite (truthy_clean_list _ Hv). simpl. by apply rebuild_csv_clean.
Qed.
End Codec.

(** ** Running the monad *)

Section Run.
Context {B H : Type}.
Implicit Types w : World B H.

Lemma run_bind {A A'} (m : M B H A) (f : A → M B H A') w w' r :
  (m ≫= f) w = (w', r) →
  (∃ w1 a, m w = (w1, Ok a) ∧ f a w1 = (w', r)) ∨
  (∃ message, m w = (w', Thrown message) ∧ r = Thrown message) ∨
  (m w = (w', OutOfFuel) ∧ r = OutOfFuel).
Proof.
  unfold mbind, M_bind. destruct (m w) as [w1 [a|message|]]; intros Hr.
  - left. eauto.
  - right. left. injection Hr as <- <-. eauto.
  - right. right. by injection Hr as <- <-.
Qed.

Lemma run_await {A} (ev : response A → Event H) op w w' r :
  await ev op w = (w', r) →
  ∃ resp, (op (backend w)).2 = resp ∧
    collections w' = collections w ∧ backend w' = (op (backend w)).1 ∧
    issued w' = issued w ++ [ev resp] ∧ clock_reads w' = clock_reads w ∧
    r = match resp with Resolved a => Ok a | Rejected message => Thrown message end.
Proof.
  unfold await. destruct (op (backend w)) as [b resp]. intros [= <- <-].
  by exists resp.
Qed.

Lemma run_try_catch_ok {A} (body : M B H A) prefix w w' a :
  try_catch body (λ message, throw (prefix +:+ message)) w = (w', Ok a) →
  body w = (w', Ok a).
Proof. unfold try_catch, throw. by destruct (body w) as [w1 [a1|message|]]. Qed.

Lemma run_try_catch {A} (body : M B H A) prefix w :
  try_catch body (λ message, throw (prefix +:+ message)) w =
    match body w with
    | (w', Thrown message) => (w', Thrown (prefix +:+ message))
    | settled => settled
    end.
Proof. unfold try_catch, throw. by destruct (body w) as [w1 [a1|message|]]. Qed.
End Run.

(** ** [Map] *)

Lemma Map_has_spec {V} k (m : JsMap V) : Map_has k m = true ↔ k ∈ m.*1.
Proof. unfold Map_has. apply bool_decide_eq_true. Qed.

Lemma Map_set_fresh {V} k (v : V) (m : JsMap V) : k ∉ m.*1 → Map_set k v m = m ++ [(k, v)].
Proof.
  induction m as [|[k' v'] m IH]; simpl; [done|]. intros Hk.
  apply not_elem_of_cons in Hk as [Hne Hk]. rewrite decide_False by done.
  by rewrite IH.
Qed.

(** ** [listDocuments] *)

Section Listing.
Context {B H : Type} `{!Host B H} `{!NumberConversions}.
Implicit Types w : World B H.

Lemma first_seen_at_app chunks more p md :
  first_seen_at chunks p md → first_seen_at (chunks ++ more) p md.
Proof.
  intros [Hp Hfirst]. split; [by apply lookup_app_l_Some|].
  intros q md' Hq Hmd'. apply (Hfirst q md' Hq).
  apply lookup_lt_Some in Hp. rewrite lookup_app_l in Hmd' by lia. done.
Qed.

Lemma lists_chunk_weaken t0 t1 t1' chunks more d p :
  t1 ≤ t1' → lists_chunk t0 t1 chunks d p → lists_chunk t0 t1' (chunks ++ more) d p.
Proof.
  intros Ht (md & t & Hfirst & Hid & Hbounds & ->).
  exists md, t. split_and!; try done; try lia. by apply first_seen_at_app.
Qed.

Lemma lists_chunk_position t0 t1 chunks d p :
  lists_chunk t0 t1 chunks d p → p < length chunks.
Proof. intros (md & t & [Hp _] & _). by apply lookup_lt_Some in Hp. Qed.

Lemma tracks_nil t0 t1 : tracks t0 t1 [] [].
Proof.
  exists []. split_and!; [constructor|constructor|].
  intros md Hmd. by apply elem_of_nil in Hmd.
Qed.

Lemma tracks_skip t0 t1 t1' chunks docsById md :
  t1 ≤ t1' →
  tracks t0 t1 chunks docsById →
  docId md = "" ∨ docId md ∈ docsById.*1 →
  tracks t0 t1' (chunks ++ [md]) docsById.
Proof.
  intros Ht (positions & Hsorted & Hlisted & Hall) Hskip.
  exists positions. split_and!; [done| |].
  - eapply Forall2_impl; [done|]. intros kd p [Hk Hl].
    split; [done|]. by eapply lists_chunk_weaken.
  - intros md' [Hin | ->%list_elem_of_singleton]%elem_of_app Hid; [by apply Hall|].
    by destruct Hskip.
Qed.

Lemma tracks_add t0 t1 t1' chunks docsById md t :
  t1 ≤ t1' → t0 ≤ t ≤ t1' →
  tracks t0 t1 chunks docsById →
  docId md ≠ "" → docId md ∉ docsById.*1 →
  tracks t0 t1' (chunks ++ [md])
    (docsById ++ [(docId md, listed_document md (toISOString t))]).
Proof.
  intros Ht Hbounds (positions & Hsorted & Hlisted & Hall) Hid Hfresh.
  exists (positions ++ [length chunks]). split_and!.
  - apply StronglySorted_app_2; [|done|repeat constructor].
    intros p q Hp ->%list_elem_of_singleton.
    apply list_elem_of_lookup in Hp as [i Hp].
    destruct (Forall2_lookup_r _ _ _ _ _ Hlisted Hp) as (kd & _ & _ & Hl).
    by eapply lists_chunk_position.
  - apply Forall2_app.
    + eapply Forall2_impl; [done|]. intros kd p [Hk Hl].
      split; [done|]. by eapply lists_chunk_weaken.
    + repeat constructor. exists md, t. split_and!; try done; try lia.
      split; [by apply list_lookup_middle|].
      intros q md' Hq Hmd' Heq. rewrite lookup_app_l in Hmd' by done.
      apply Hfresh. rewrite <- Heq. apply Hall; [|congruence].
      by eapply list_elem_of_lookup_2.
  - intros md' [Hin | ->%list_elem_of_singleton]%elem_of_app Hid'.
    + rewrite fmap_app. apply elem_of_app. left. by apply Hall.
    + rewrite fmap_app. apply elem_of_app. right. by left.
Qed.

Lemma run_visit md docsById w t0 chunks :
  tracks t0 (clock_reads w) chunks docsById → t0 ≤ clock_reads w →
  ∃ w' docsById',
    visit md docsById w = (w', Ok docsById') ∧
    tracks t0 (clock_reads w') (chunks ++ [md]) docsById' ∧
    collections w' = collections w ∧ backend w' = backend w ∧
    issued w' = issued w ∧ clock_reads w ≤ clock_reads w'.
Proof.
  intros Htracks Ht0. unfold visit.
  destruct (nonempty (docId md)) eqn:Hid; simpl.
  2:{ exists w, docsById. split_and!; try done.
      apply (tracks_skip t0 (clock_reads w)); [lia|done|]. left. by destruct (docId md). }
  destruct (Map_has (docId md) docsById) eqn:Hhas.
  { exists w, docsById. split_and!; try done.
    apply (tracks_skip t0 (clock_reads w)); [lia|done|]. right. by apply Map_has_spec. }
  assert (Hfresh : docId md ∉ docsById.*1).
  { intros Hin%Map_has_spec. congruence. }
  assert (Hne : docId md ≠ "") by (by destruct (docId md)).
  destruct (prop md "created_at") as [| | | | |] eqn:Hcreated;
    unfold mbind, M_bind, mret, M_ret, new_Date_toISOString; simpl;
    rewrite Map_set_fresh by done.
  all: eexists _, _; split; [reflexivity|]; simpl; split_and!; try done; try lia.
  all: match goal with
       | |- tracks _ _ _ (_ ++ [(_, ?d)]) =>
           replace d with (listed_document md (toISOString (clock_reads w)))
             by (unfold listed_document; by rewrite Hcreated)
       end.
  all: apply (tracks_add t0 (clock_reads w)); try done; lia.
Qed.

Lemma run_visit_all metadatas docsById w t0 chunks :
  tracks t0 (clock_reads w) chunks docsById → t0 ≤ clock_reads w →
  ∃ w' docsById',
    visit_all metadatas docsById w = (w', Ok docsById') ∧
    tracks t0 (clock_reads w') (chunks ++ metadatas) docsById' ∧
    collections w' = collections w ∧ backend w' = backend w ∧
    issued w' = issued w ∧ clock_reads w ≤ clock_reads w'.
Proof.
  revert docsById w chunks.
  induction metadatas as [|md metadatas IH]; intros docsById w chunks Htracks Ht0.
  - exists w, docsById. by rewrite app_nil_r.
  - destruct (run_visit md docsById w t0 chunks Htracks Ht0)
      as (w1 & docsById1 & Hrun & Htracks1 & Hc1 & Hb1 & Hi1 & Ht1).
    destruct (IH docsById1 w1 (chunks ++ [md]) Htracks1 ltac:(lia))
      as (w2 & docsById2 & Hrun2 & Htracks2 & Hc2 & Hb2 & Hi2 & Ht2).
    exists w2, docsById2. simpl. unfold mbind, M_bind. rewrite Hrun, Hrun2.
    rewrite <- app_assoc in Htracks2. split_and!; try done; try congruence; lia.
Qed.
Lemma fetched_app (evs1 evs2 : list (Event H)) : fetched (evs1 ++ evs2) = fetched evs1 ++ fetched evs2.
Proof. apply bind_app. Qed.

Lemma run_list_pages fuel collection total offset docsById w w' r t0 chunks :
  list_pages fuel collection total offset docsById w = (w', r) →
  tracks t0 (clock_reads w) chunks docsById → t0 ≤ clock_reads w →
  total ≤ offset + fuel →
  ∃ evs,
    issued w' = issued w ++ evs ∧ clock_reads w ≤ clock_reads w' ∧
    Forall (λ ev, is_page_fetch ev = true) evs ∧
    r ≠ OutOfFuel ∧
    ∀ docsById', r = Ok docsById' →
      tracks t0 (clock_reads w') (chunks ++ fetched evs) docsById'.
Proof.
  revert offset docsById w chunks.
  induction fuel as [|fuel IH]; intros offset docsById w chunks; simpl.
  - case_decide; [lia|]. intros [= <- <-] Htracks _ _. exists [].
    rewrite !app_nil_r. split_and!; try done. by intros ? [= <-].
  - case_decide as Hlt.
    2:{ intros [= <- <-] Htracks _ _. exists [].
        rewrite !app_nil_r. split_and!; try done. by intros ? [= <-]. }
    intros Hrun Htracks Ht0 Hfuel.
    apply run_bind in Hrun as [(w1 & batch & Hget & Hrun) | [(message & Hget & ->) | [Hget ->]]];
      apply run_await in Hget as (resp & _ & _ & _ & Hi1 & Ht1 & Hr1);
      destruct resp as [batch'|message']; try done.
    2:{ exists [EvGet collection pageSize offset (Rejected message')].
        split_and!; try done; [lia|by repeat constructor]. }
    injection Hr1 as ->.
    rewrite <- Ht1 in Htracks, Ht0.
    destruct (run_visit_all (default [] (batch' ≫= get_metadatas)) docsById w1 t0 chunks
                Htracks Ht0) as (w2 & docsById2 & Hvisit & Htracks2 & _ & _ & Hi2 & Ht2).
    apply run_bind in Hrun as [(w2' & docsById2' & Hvisit' & Hrun) | [(? & Hvisit' & _) | [Hvisit' _]]];
      rewrite Hvisit in Hvisit'; try done.
    injection Hvisit' as <- <-.
    destruct (IH _ _ _ _ Hrun Htracks2 ltac:(lia) ltac:(unfold pageSize; lia))
      as (evs & Hi3 & Ht3 & Hgets & Hfuel3 & Hok).
    exists (EvGet collection pageSize offset (Resolved batch') :: evs).
    split_and!; try done.
    + rewrite Hi3, Hi2, Hi1, <- app_assoc. done.
    + lia.
    + by constructor.
    + intros docsById' Hr. specialize (Hok _ Hr).
      change (EvGet collection pageSize offset (Resolved batch') :: evs)
        with ([EvGet collection pageSize offset (Resolved batch')] ++ evs).
      rewrite fetched_app, app_assoc.
      replace (fetched [EvGet collection pageSize offset (Resolved batch')])
        with (default [] (batch' ≫= get_metadatas)); [done|].
      unfold fetched. simpl. by rewrite app_nil_r.
Qed.

Lemma run_resolve setId w w' r :
  resolve setId w = (w', r) →
  clock_reads w' = clock_reads w ∧
  ((∃ collection, issued w' = issued w ∧ r = Ok collection) ∨
   (∃ resp, issued w' = issued w ++ [EvGetCollection setId resp] ∧
      r = match resp with
          | Resolved collection => Ok collection
          | Rejected message => Thrown message
          end)).
Proof.
  unfold resolve. destruct (collections w !! setId) as [collection|].
  { intros [= <- <-]. split; [done|]. left. by exists collection. }
  intros Hrun.
  apply run_bind in Hrun as [(w1 & c & Hget & Hrun) | [(message & Hget & ->) | [Hget ->]]];
    apply run_await in Hget as (resp & _ & _ & _ & Hi1 & Ht1 & Hr1);
    destruct resp as [c'|message']; try done.
  - injection Hr1 as ->. unfold collections_set, mbind, M_bind, mret, M_ret in Hrun.
    injection Hrun as <- <-. simpl. split; [done|]. right. by exists (Resolved c').
  - injection Hr1 as ->. split; [done|]. right. by exists (Rejected message').
Qed.

Lemma lists_chunk_id t0 t1 chunks d p :
  lists_chunk t0 t1 chunks d p → ld_id d ≠ "" ∧ ∃ md, chunks !! p = Some md ∧ docId md = ld_id d.
Proof. intros (md & t & [Hp _] & Hid & _ & ->). split; [done|]. by exists md. Qed.

Lemma listed_ids_NoDup t0 t1 chunks docs positions :
  StronglySorted lt positions →
  Forall2 (lists_chunk t0 t1 chunks) docs positions →
  NoDup (ld_id <$> docs).
Proof.
  intros Hsorted Hlisted. induction Hlisted as [|d p docs positions Hd Hlisted IH]; simpl.
  { constructor. }
  apply StronglySorted_cons in Hsorted as [Hp Hsorted].
  constructor; [|by apply IH].
  intros (d' & Heq & Hd')%list_elem_of_fmap.
  apply list_elem_of_lookup in Hd' as [i Hd'].
  destruct (Forall2_lookup_l _ _ _ _ _ Hlisted Hd') as (p' & Hp' & Hl').
  rewrite Forall_forall in Hp. specialize (Hp p' ltac:(by eapply list_elem_of_lookup_2)).
  destruct Hl' as (md' & t' & [_ Hfirst] & _ & _ & ->).
  destruct Hd as (md & t & [Hmd _] & _ & _ & ->).
  by apply (Hfirst p md Hp Hmd).
Qed.

Lemma tracks_result t0 t1 chunks docsById :
  tracks t0 t1 chunks docsById →
  ∃ positions,
    StronglySorted lt positions ∧
    Forall2 (lists_chunk t0 t1 chunks) (Map_values docsById) positions ∧
    (∀ md, md ∈ chunks → docId md ≠ "" → docId md ∈ ld_id <$> Map_values docsById) ∧
    NoDup (ld_id <$> Map_values docsById).
Proof.
  intros (positions & Hsorted & Hlisted & Hall). exists positions.
  assert (Hvalues : Forall2 (lists_chunk t0 t1 chunks) (Map_values docsById) positions).
  { unfold Map_values. apply Forall2_fmap_l.
    eapply Forall2_impl; [done|]. by intros kd p [_ Hl]. }
  assert (Hkeys : docsById.*1 = ld_id <$> Map_values docsById).
  { unfold Map_values. rewrite <- list_fmap_compose. apply list_eq_Forall2.
    apply Forall2_fmap, Forall2_same_length_lookup. split; [done|].
    intros i kd kd' Hkd Hkd'. assert (kd' = kd) as -> by congruence.
    destruct (Forall2_lookup_l _ _ _ _ _ Hlisted Hkd) as (p & _ & Hk & _). done. }
  split_and!; try done.
  - intros md Hmd Hid. rewrite <- Hkeys. by apply Hall.
  - by eapply listed_ids_NoDup.
Qed.

Lemma run_resolve_events setId w w' r :
  resolve setId w = (w', r) →
  ∃ evs,
    issued w' = issued w ++ evs ∧ clock_reads w' = clock_reads w ∧
    r ≠ OutOfFuel ∧
    Forall (λ ev, ∃ resp, ev = EvGetCollection setId resp) evs.
Proof.
  intros [Ht [(collection & Hi & ->) | (resp & Hi & ->)]]%run_resolve.
  - exists []. by rewrite app_nil_r.
  - exists [EvGetCollection setId resp]. split_and!; try done.
    + by destruct resp.
    + repeat constructor. by exists resp.
Qed.

Lemma fetched_lookups setId (evs : list (Event H)) :
  Forall (λ ev, ∃ resp, ev = EvGetCollection setId resp) evs → fetched evs = [].
Proof.
  induction 1 as [|ev evs [resp ->] _ IH]; [done|].
  change (EvGetCollection setId resp :: evs) with ([EvGetCollection setId resp] ++ evs).
  by rewrite fetched_app, IH.
Qed.

Lemma tracks_listing_nil t0 t1 : tracks_listing t0 t1 [] [].
Proof.
  exists []. split_and!; try constructor. intros md Hmd. by apply elem_of_nil in Hmd.
Qed.

Lemma run_listDocuments setId w w' r :
  listDocuments setId w = (w', r) →
  ∃ evs,
    issued w' = issued w ++ evs ∧ r ≠ OutOfFuel ∧
    (∀ docs, r = Ok docs →
       tracks_listing (clock_reads w) (clock_reads w') (fetched evs) docs) ∧
    (∀ collection, EvCount collection (Resolved 0) ∈ evs →
       r = Ok [] ∧ Forall (λ ev, is_page_fetch ev = false) evs).
Proof.
  unfold listDocuments. rewrite run_try_catch.
  match goal with |- match ?body with _ => _ end = _ → _ =>
    destruct body as [w1 r1] eqn:Hbody end.
  intros Hr.
  enough (∃ evs,
    issued w1 = issued w ++ evs ∧ r1 ≠ OutOfFuel ∧
    (∀ docs, r1 = Ok docs →
       tracks_listing (clock_reads w) (clock_reads w1) (fetched evs) docs) ∧
    (∀ collection, EvCount collection (Resolved 0) ∈ evs →
       r1 = Ok [] ∧ Forall (λ ev, is_page_fetch ev = false) evs))
    as (evs & Hi & Hfuel & Hok & Hzero).
  { exists evs. destruct r1 as [docs|message|]; injection Hr as <- <-; try done.
    split_and!; try done. intros c Hc. by destruct (Hzero c Hc). }
  clear Hr r w'.
  apply run_bind in Hbody
    as [(w0 & collection & Hres & Hbody) | [(message & Hres & ->) | [Hres ->]]];
    apply run_resolve_events in Hres as (evs0 & Hi0 & Ht0 & Hfuel0 & Hevs0); [| |done].
  2:{ exists evs0. split_and!; try done. intros c Hc.
      rewrite Forall_forall in Hevs0. by destruct (Hevs0 _ Hc). }
  assert (Hno0 : ∀ c n, EvCount c (Resolved n) ∉ evs0).
  { intros c n Hc. rewrite Forall_forall in Hevs0. by destruct (Hevs0 _ Hc). }
  assert (Hno0' : Forall (λ ev : Event H, is_page_fetch ev = false) evs0).
  { eapply Forall_impl; [done|]. by intros ev [resp ->]. }
  apply run_bind in Hbody
    as [(wc & total & Hcount & Hbody) | [(message & Hcount & ->) | [Hcount ->]]];
    apply run_await in Hcount as (resp & _ & _ & _ & Hic & Htc & Hrc);
    destruct resp as [total'|message']; try done.
  2:{ exists (evs0 ++ [EvCount collection (Rejected message')]).
      rewrite Hic, Hi0, <- app_assoc. split_and!; try done.
      intros c [Hc | Hc%list_elem_of_singleton]%elem_of_app; [by destruct (Hno0 c 0)|done]. }
  injection Hrc as ->.
  case_decide as Htotal.
  { injection Hbody as <- <-. subst total'.
    exists (evs0 ++ [EvCount collection (Resolved 0)]).
    rewrite Hic, Hi0, <- app_assoc. split_and!; try done.
    - intros docs [= <-]. rewrite fetched_app, (fetched_lookups setId) by done.
      apply tracks_listing_nil.
    - intros _ _. split; [done|]. apply Forall_app. split; [done|by repeat constructor]. }
  apply run_bind in Hbody
    as [(wp & docsById & Hpages & Hbody) | [(message & Hpages & ->) | [Hpages ->]]];
    apply (run_list_pages _ _ _ _ _ _ _ _ (clock_reads w) []) in Hpages
      as (evs & Hip & Htp & Hgets & Hfuelp & Hok);
    try done; try lia; try apply tracks_nil.
  all: assert (Hnoc : ∀ c, EvCount c (Resolved 0) ∉ evs0 ++ [EvCount collection (Resolved total')] ++ evs);
    [ intros c [Hc | [Hc%list_elem_of_singleton | Hc]%elem_of_app]%elem_of_app;
      [ by destruct (Hno0 c 0) | congruence
      | rewrite Forall_forall in Hgets; by specialize (Hgets _ Hc) ] |].
  all: exists (evs0 ++ [EvCount collection (Resolved total')] ++ evs).
  - injection Hbody as <- <-. rewrite Hip, Hic, Hi0, <- !app_assoc.
    split_and!; try done.
    + intros docs [= <-]. rewrite !fetched_app, (fetched_lookups setId) by done.
      simpl. apply tracks_result. specialize (Hok _ eq_refl).
      by simpl in Hok.
    + intros c Hc. by destruct (Hnoc c).
  - rewrite Hip, Hic, Hi0, <- !app_assoc.
    split_and!; try done. intros c Hc. by destruct (Hnoc c).
Qed.
(** [listDocuments] settles: the bound given to its loop is enough. *)
Lemma listDocuments_settles setId w : (listDocuments setId w).2 ≠ OutOfFuel.
Proof.
  destruct (listDocuments setId w) as [w' r] eqn:Hrun.
  by apply run_listDocuments in Hrun as (evs & _ & Hr & _).
Qed.

(** C2: what [listDocuments] returns lists, in the order in which they
    first appear in the pages fetched, the chunks that are the first of
    their document: each entry comes from such a chunk, whose document id
    is not empty, with "unknown", "text/plain", 0 and the time of the
    clock for the fields the chunk lacks; every non-empty document id of
    the pages has an entry; and no two entries have the same id. *)
Theorem listDocuments_lists_each_document_once setId w w' docs :
  listDocuments setId w = (w', Ok docs) →
  ∃ evs positions,
    issued w' = issued w ++ evs ∧
    StronglySorted lt positions ∧
    Forall2 (λ d p, ∃ md t,
               first_seen_at (fetched evs) p md ∧ docId md ≠ "" ∧
               clock_reads w ≤ t ≤ clock_reads w' ∧
               d = {| ld_id := docId md;
                      ld_source_file := to_string (nullish (prop md "source_file") (VStr "unknown"));
                      ld_mime_type := to_string (nullish (prop md "mime_type") (VStr "text/plain"));
                      ld_size_bytes := to_number (nullish (prop md "size_bytes") (VNum 0));
                      ld_created_at :=
                        to_string (nullish (prop md "created_at") (VStr (toISOString t))) |})
            docs positions ∧
    (∀ md, md ∈ fetched evs → docId md ≠ "" → docId md ∈ ld_id <$> docs) ∧
    NoDup (ld_id <$> docs).
Proof.
  intros (evs & Hi & _ & Hok & _)%run_listDocuments.
  destruct (Hok docs eq_refl) as (positions & Hsorted & Hlisted & Hall & Hnodup).
  by exists evs, positions.
Qed.

(** C8: when the count of the set is 0, [listDocuments] returns the
    empty list and none of the calls it made is a page fetch. *)
Theorem listDocuments_of_an_empty_set setId w w' r evs collection :
  listDocuments setId w = (w', r) →
  issued w' = issued w ++ evs →
  EvCount collection (Resolved 0) ∈ evs →
  r = Ok [] ∧ Forall (λ ev, is_page_fetch ev = false) evs.
Proof.
  intros (evs' & Hi & _ & _ & Hzero)%run_listDocuments Hevs.
  rewrite Hi in Hevs. apply app_inv_head in Hevs as <-. apply Hzero.
Qed.
End Listing.

(** ** [addDocuments] *)

Lemma ceil_div_le n d j : 0 < d → ceil_div n d ≤ j ↔ n ≤ j * d.
Proof.
  intros Hd. unfold ceil_div.
  pose proof (Nat.div_mod_eq (n + d - 1) d) as Hdiv.
  pose proof (Nat.mod_upper_bound (n + d - 1) d ltac:(lia)) as Hmod.
  set (q := (n + d - 1) / d) in *. set (m := (n + d - 1) mod d) in *.
  clearbody q m.
  split; intros Hle.
  - pose proof (Nat.mul_le_mono_l q j d Hle). lia.
  - apply Nat.nlt_ge. intros Hlt.
    pose proof (Nat.mul_le_mono_l (S j) q d Hlt). lia.
Qed.

Section Ingestion.
Context {B H : Type} `{!Host B H} `{!NumberConversions}.
Implicit Types w : World B H.

Lemma batch_at_eq documents j :
  batch_at documents j = take batchSize (drop (j * batchSize) documents).
Proof. unfold batch_at, slice. f_equal. lia. Qed.

Lemma length_batch_at documents j : length (batch_at documents j) ≤ batchSize.
Proof. rewrite batch_at_eq, length_take. lia. Qed.

Lemma concat_batches documents n :
  concat (batch_at documents <$> seq 0 n) = take (n * batchSize) documents.
Proof.
  induction n as [|n IH]; [done|].
  rewrite seq_S, fmap_app, concat_app, IH.
  change (concat (batch_at documents <$> [0 + n])) with (batch_at documents n ++ []).
  rewrite app_nil_r, batch_at_eq, take_take_drop. f_equal. lia.
Qed.

Lemma concat_all_batches documents :
  concat (batch_at documents <$> seq 0 (ceil_div (length documents) batchSize)) = documents.
Proof.
  rewrite concat_batches. apply take_ge.
  by apply (ceil_div_le _ batchSize); [unfold batchSize; lia|].
Qed.

(** The calls of [add] for the batches [j], ..., [j + n - 1], all resolved. *)
Lemma run_add_batches fuel collection documents j w w' r :
  add_batches fuel collection documents (j * batchSize) w = (w', r) →
  length documents ≤ j * batchSize + fuel →
  ∃ n,
    (r = Ok () ∧ n = ceil_div (length documents) batchSize - j ∧
     issued w' = issued w ++
       ((λ i, EvAdd collection (add_request (batch_at documents i)) (Resolved ())) <$> seq j n)) ∨
    (∃ message, r = Thrown message ∧ j + n < ceil_div (length documents) batchSize ∧
     issued w' = issued w ++
       ((λ i, EvAdd collection (add_request (batch_at documents i)) (Resolved ())) <$> seq j n) ++
       [EvAdd collection (add_request (batch_at documents (j + n))) (Rejected message)]).
Proof.
  assert (Hb : 0 < batchSize) by (unfold batchSize; lia).
  revert j w. induction fuel as [|fuel IH]; intros j w Hrun Hfuel.
  - unfold add_batches in Hrun. rewrite decide_False in Hrun by lia.
    injection Hrun as <- <-. exists 0. left. rewrite app_nil_r. split_and!; try done.
    pose proof (ceil_div_le (length documents) batchSize j Hb) as [_ Hc]. lia.
  - cbn [add_batches] in Hrun. case_decide as Hlt.
    2:{ injection Hrun as <- <-. exists 0. left. rewrite app_nil_r. split_and!; try done.
        pose proof (ceil_div_le (length documents) batchSize j Hb) as [_ Hc]. lia. }
    assert (Hj : j < ceil_div (length documents) batchSize).
    { apply Nat.nle_gt. intros Hle%ceil_div_le; [lia|done]. }
    fold (batch_at documents j) in Hrun.
    apply run_bind in Hrun as [(w1 & [] & Hadd & Hrun) | [(message & Hadd & ->) | [Hadd ->]]];
      apply run_await in Hadd as (resp & _ & _ & _ & Hi1 & _ & Hr1);
      destruct resp as [[]|message']; try done.
    + replace (j * batchSize + batchSize) with (S j * batchSize) in Hrun by lia.
      apply IH in Hrun as [n [(-> & -> & Hi) | (message & -> & Hn & Hi)]]; [| |lia].
      * exists (S (ceil_div (length documents) batchSize - S j)). left.
        split_and!; [done|lia|]. rewrite Hi, Hi1, <- app_assoc. done.
      * exists (S n). right. exists message.
        split_and!; [done|lia|]. rewrite Hi, Hi1, <- !app_assoc.
        by replace (j + S n) with (S j + n) by lia.
    + injection Hr1 as ->. exists 0. right. exists message'.
      split_and!; [done|lia|]. rewrite Hi1, Nat.add_0_r. done.
Qed.
Lemma added_app (evs1 evs2 : list (Event H)) : added (evs1 ++ evs2) = added evs1 ++ added evs2.
Proof. apply omap_app. Qed.

Lemma added_lookups setId (evs : list (Event H)) :
  Forall (λ ev, ∃ resp, ev = EvGetCollection setId resp) evs → added evs = [].
Proof. induction 1 as [|ev evs [resp ->] _ IH]; [done|]. by simpl. Qed.

Lemma added_resolved (collection : H) documents n :
  added ((λ i, EvAdd collection (add_request (batch_at documents i)) (Resolved ())) <$> seq 0 n)
  = resolved_calls documents n.
Proof.
  unfold resolved_calls. induction (seq 0 n) as [|j js IH]; [done|].
  rewrite !fmap_cons. unfold added in *. cbn [omap list_omap add_call]. by rewrite IH.
Qed.

Lemma run_addDocuments setId documents w w' r :
  addDocuments setId documents w = (w', r) →
  ∃ evs,
    issued w' = issued w ++ evs ∧
    ((r = Ok () ∧
      added evs = resolved_calls documents (ceil_div (length documents) batchSize)) ∨
     (∃ message n,
        r = Thrown ("Failed to add documents: " +:+ message) ∧
        n < ceil_div (length documents) batchSize ∧
        added evs = resolved_calls documents n ++
                    [(add_request (batch_at documents n), Rejected message)]) ∨
     (∃ message,
        r = Thrown ("Failed to add documents: " +:+ message) ∧ added evs = [])).
Proof.
  unfold addDocuments. rewrite run_try_catch.
  match goal with |- match ?body with _ => _ end = _ → _ =>
    destruct body as [w1 r1] eqn:Hbody end.
  apply run_bind in Hbody
    as [(w0 & collection & Hres & Hbody) | [(message & Hres & ->) | [Hres ->]]];
    apply run_resolve_events in Hres as (evs0 & Hi0 & _ & Hfuel0 & Hevs0); [| |done].
  2:{ intros [= <- <-]. exists evs0. split; [done|]. right. right.
      exists message. split; [done|]. by eapply added_lookups. }
  apply (run_add_batches _ _ _ 0) in Hbody
    as [n [(-> & -> & Hi) | (message & -> & Hn & Hi)]]; [| |lia].
  - intros [= <- <-]. eexists. rewrite Hi, Hi0, <- app_assoc. split; [done|]. left.
    split; [done|]. rewrite added_app, (added_lookups setId) by done.
    by rewrite Nat.sub_0_r, added_resolved.
  - intros [= <- <-]. eexists. rewrite Hi, Hi0, <- app_assoc. split; [done|]. right. left.
    exists message, n. split_and!; [done|lia|].
    rewrite !added_app, (added_lookups setId) by done. by rewrite added_resolved.
Qed.

Lemma lookup_resolved_calls documents n j call :
  resolved_calls documents n !! j = Some call →
  j < n ∧ call = (add_request (batch_at documents j), Resolved ()).
Proof.
  unfold resolved_calls. rewrite list_lookup_fmap.
  destruct (seq 0 n !! j) as [j'|] eqn:Hj; [|done].
  apply lookup_seq in Hj as [-> Hj]. by intros [= <-].
Qed.

Lemma concat_fmap_fmap {A A'} (f : A → A') (ls : list (list A)) :
  concat (fmap (M := list) f <$> ls) = f <$> concat ls.
Proof.
  induction ls as [|l ls IH]; [done|].
  rewrite fmap_cons. cbn [concat]. by rewrite fmap_app, IH.
Qed.

Lemma concat_resolved_calls {A} (field : AddRequest → list A) (f : Document → A) documents :
  (∀ batch, field (add_request batch) = f <$> batch) →
  concat (field ∘ fst <$> resolved_calls documents (ceil_div (length documents) batchSize))
  = f <$> documents.
Proof.
  intros Hfield. unfold resolved_calls. rewrite <- list_fmap_compose.
  rewrite <- (concat_all_batches documents) at 2. rewrite <- concat_fmap_fmap.
  rewrite <- list_fmap_compose. f_equal. apply list_fmap_ext. intros _ j _. apply Hfield.
Qed.

(** [addDocuments] settles: the bound given to its loop is enough. *)
Lemma addDocuments_settles setId documents w :
  (addDocuments setId documents w).2 ≠ OutOfFuel.
Proof.
  destruct (addDocuments setId documents w) as [w' r] eqn:Hrun.
  apply run_addDocuments in Hrun as (evs & _ & Hr). simpl.
  by destruct Hr as [[-> _] | [(? & ? & -> & _) | (? & -> & _)]].
Qed.

(** C3: an ingestion that succeeds has issued [ceil(N/100)] calls of
    [add], all resolved, the [j]-th for the [j]-th run of 100 consecutive
    documents; each has at most 100 entries in four parallel arrays; and
    put end to end, the calls hold every document once, in order. *)
Theorem addDocuments_issues_consecutive_batches setId documents w w' :
  addDocuments setId documents w = (w', Ok ()) →
  ∃ evs,
    issued w' = issued w ++ evs ∧
    length (added evs) = ceil_div (length documents) batchSize ∧
    (∀ j call, added evs !! j = Some call →
       call = (add_request (slice (j * batchSize) (j * batchSize + batchSize) documents),
               Resolved ())) ∧
    Forall (λ call, length (add_ids call.1) ≤ batchSize ∧ parallel call.1) (added evs) ∧
    concat (add_ids ∘ fst <$> added evs) = doc_id <$> documents ∧
    concat (add_embeddings ∘ fst <$> added evs) = doc_embedding <$> documents ∧
    concat (add_documents ∘ fst <$> added evs) = doc_content <$> documents ∧
    concat (add_metadatas ∘ fst <$> added evs)
      = (λ doc, shape_metadata (doc_metadata doc)) <$> documents.
Proof.
  intros (evs & Hi & [[_ Hadded] | [(? & ? & ? & _) | (? & ? & _)]])%run_addDocuments;
    try done.
  exists evs. rewrite Hadded. split_and!; try done.
  - unfold resolved_calls. by rewrite length_fmap, length_seq.
  - by intros j call [_ ->]%lookup_resolved_calls.
  - apply Forall_forall. intros call [j Hcall]%list_elem_of_lookup.
    apply lookup_resolved_calls in Hcall as [_ ->]. simpl. unfold parallel. simpl.
    rewrite !length_fmap. split; [apply length_batch_at|done].
  - by apply concat_resolved_calls.
  - by apply concat_resolved_calls.
  - by apply concat_resolved_calls.
  - by apply concat_resolved_calls.
Qed.

(** C6, as amended: when a call of [add] is rejected, the calls before
    it were those for the batches before, all resolved; it is the last
    call made; and [addDocuments] fails with the message of the rejection
    after "Failed to add documents: ". *)
Theorem addDocuments_stops_at_the_rejected_batch
    setId documents w w' r evs k req message :
  addDocuments setId documents w = (w', r) →
  issued w' = issued w ++ evs →
  added evs !! k = Some (req, Rejected message) →
  take k (added evs) = resolved_calls documents k ∧
  req = add_request (batch_at documents k) ∧
  length (added evs) = S k ∧
  r = Thrown ("Failed to add documents: " +:+ message).
Proof.
  intros (evs' & Hi & Hr)%run_addDocuments Hevs Hk.
  rewrite Hi in Hevs. apply app_inv_head in Hevs as <-.
  destruct Hr as [[_ Hadded] | [(message' & n & -> & Hn & Hadded) | (? & _ & Hadded)]];
    rewrite Hadded in Hk |- *.
  - by apply lookup_resolved_calls in Hk as [_ ?].
  - assert (Hlen : length (resolved_calls documents n) = n).
    { unfold resolved_calls. by rewrite length_fmap, length_seq. }
    apply lookup_app_Some in Hk as [Hk | [Hge Hk]].
    { by apply lookup_resolved_calls in Hk as [_ ?]. }
    rewrite Hlen in Hge, Hk. apply list_lookup_singleton_Some in Hk as [Hk [= <- <-]].
    assert (k = n) as -> by lia.
    split_and!; try done.
    + by rewrite take_app_length' by done.
    + rewrite length_app, Hlen. simpl. lia.
  - done.
Qed.
End Ingestion.

(** ** [searchDocuments] *)





Lemma lookup_hits results index h :
  hits results !! index = Some h →
  ∃ ids id, q_ids results !! 0 = Some ids ∧ ids !! index = Some id ∧ h = hit results index id.
Proof.
  unfold hits. destruct (q_ids results !! 0) as [ids|]; [|done].
  rewrite list_lookup_imap. destruct (ids !! index) as [id|] eqn:Hid; [|done].
  intros [= <-]. by exists ids, id.
Qed.

(** Subtracting a zero of either sign from 1 gives 1. *)
Lemma one_minus_zero d : PrimFloat.eqb d 0 = true → (1 - d)%float = 1%float.
Proof.
  intros Hd. rewrite FloatAxioms.eqb_spec in Hd.
  apply Prim2SF_inj. rewrite FloatAxioms.sub_spec.
  change (Prim2SF 0) with (S754_zero false) in Hd.
  destruct (Prim2SF d) as [s|s| |s m e]; try done; by destruct s.
Qed.

Lemma one_minus_distance_or_zero d :
  is_nan d = false → (1 - distance_or_zero (Some d))%float = (1 - d)%float.
Proof.
  intros Hnan. unfold distance_or_zero, number_truthy. rewrite Hnan.
  destruct (PrimFloat.eqb d 0) eqn:Hd; simpl; [|done].
  by rewrite (one_minus_zero d).
Qed.

Section Search.
Context {B H : Type} `{!Host B H} `{!NumberConversions}.
Implicit Types w : World B H.

Lemma run_searchDocuments setId queryEmbedding limit filters w w' r :
  searchDocuments setId queryEmbedding limit filters w = (w', r) →
  ∃ evs,
    issued w' = issued w ++ evs ∧ r ≠ OutOfFuel ∧
    Forall (λ req, req = query_request queryEmbedding (default 10 limit) filters)
           (queried evs) ∧
    ∀ found, r = Ok found →
      ∃ results, queried evs = [query_request queryEmbedding (default 10 limit) filters] ∧
                 (∃ evs0 collection req, evs = evs0 ++ [EvQuery collection req (Resolved results)]) ∧
                 found = hits results.
Proof.
  unfold searchDocuments. rewrite run_try_catch.
  match goal with |- match ?body with _ => _ end = _ → _ =>
    destruct body as [w1 r1] eqn:Hbody end.
  assert (Hlookups : ∀ evs0 : list (Event H),
            Forall (λ ev, ∃ resp, ev = EvGetCollection setId resp) evs0 → queried evs0 = []).
  { induction 1 as [|ev evs0 [resp ->] _ IH]; [done|]. by simpl. }
  apply run_bind in Hbody
    as [(w0 & collection & Hres & Hbody) | [(message & Hres & ->) | [Hres ->]]];
    apply run_resolve_events in Hres as (evs0 & Hi0 & _ & Hfuel0 & Hevs0); [| |done].
  2:{ intros [= <- <-]. exists evs0. rewrite (Hlookups _ Hevs0). by split_and!. }
  apply run_bind in Hbody
    as [(wq & results & Hquery & Hbody) | [(message & Hquery & ->) | [Hquery ->]]];
    apply run_await in Hquery as (resp & _ & _ & _ & Hiq & _ & Hrq);
    destruct resp as [results'|message']; try done.
  - injection Hrq as ->. injection Hbody as <- <-. intros [= <- <-].
    eexists. rewrite Hiq, Hi0, <- app_assoc. split; [done|].
    unfold queried in *. rewrite omap_app, Hlookups by done. simpl.
    split_and!; [done|by repeat constructor|].
    intros found [= <-]. exists results'. split_and!; [done| |done]. by eexists _, _, _.
  - intros [= <- <-].
    eexists. rewrite Hiq, Hi0, <- app_assoc. split; [done|].
    unfold queried in *. rewrite omap_app, Hlookups by done. simpl.
    split_and!; [done|by repeat constructor|done].
Qed.
Lemma run_search_hit setId queryEmbedding limit filters w w' found index h :
  searchDocuments setId queryEmbedding limit filters w = (w', Ok found) →
  found !! index = Some h →
  ∃ evs collection req results id,
    issued w' = issued w ++ evs ++ [EvQuery collection req (Resolved results)] ∧
    h = hit results index id.
Proof.
  intros (evs & Hi & _ & _ & Hok)%run_searchDocuments Hh.
  destruct (Hok found eq_refl) as (results & _ & (evs0 & collection & req & ->) & ->).
  apply lookup_hits in Hh as (ids & id & _ & _ & ->).
  by exists evs0, collection, req, results, id.
Qed.


(** C5, as amended: the similarity of a hit is the binary64 difference
    of 1 and the distance reported for it, whatever its range, when that
    distance is a number; it is 1 when the distance is [NaN]; 0.2 gives
    0.8, 0 gives 1, 1.5 gives -0.5, -0.5 gives 1.5 and -1e-300, which the
    subtraction rounds away, gives 1. The content of the
    hit is the content reported, and the empty string when none is. *)
Theorem similarity_is_one_minus_distance
    setId queryEmbedding limit filters w w' found index h :
  searchDocuments setId queryEmbedding limit filters w = (w', Ok found) →
  found !! index = Some h →
  (∃ evs collection req results,
     issued w' = issued w ++ evs ++ [EvQuery collection req (Resolved results)] ∧
     (∀ d, cell (q_distances results) index = Some d → is_nan d = false →
           sr_similarity h = (1 - d)%float) ∧
     (∀ d, cell (q_distances results) index = Some d → is_nan d = true →
           sr_similarity h = 1%float) ∧
     (∀ s, cell (q_documents results) index = Some s → sr_content h = s) ∧
     (cell (q_documents results) index = None → sr_content h = "")) ∧
  sr_similarity <$>
    hits (answer_with_distances [Some 0.2; Some 0; Some 1.5; Some (-0.5); Some (-1e-300)])%float
  = [0.8; 1; -0.5; 1.5; 1]%float.
Proof.
  intros Hrun Hh. split; [|reflexivity].
  destruct (run_search_hit _ _ _ _ _ _ _ _ _ Hrun Hh)
    as (evs & collection & req & results & id & Hi & ->).
  exists evs, collection, req, results. simpl. split_and!; [done|..].
  - intros d -> Hnan. by apply one_minus_distance_or_zero.
  - intros d -> Hnan. unfold distance_or_zero, number_truthy. rewrite Hnan.
    by rewrite andb_false_r.
  - intros s ->. by destruct s.
  - by intros ->.
Qed.

(** C10: a hit with no distance entry, in particular when the response
    has no [distances] at all, gets similarity 1, as a hit at distance 0
    does. *)
Theorem missing_distance_gives_similarity_one
    setId queryEmbedding limit filters w w' found index h :
  searchDocuments setId queryEmbedding limit filters w = (w', Ok found) →
  found !! index = Some h →
  ∃ evs collection req results,
    issued w' = issued w ++ evs ++ [EvQuery collection req (Resolved results)] ∧
    (cell (q_distances results) index = None → sr_similarity h = 1%float) ∧
    (q_distances results = None → sr_similarity h = 1%float) ∧
    (cell (q_distances results) index = Some 0%float → sr_similarity h = 1%float).
Proof.
  intros Hrun Hh.
  destruct (run_search_hit _ _ _ _ _ _ _ _ _ Hrun Hh)
    as (evs & collection & req & results & id & Hi & ->).
  exists evs, collection, req, results. simpl. split_and!; [done|..].
  - by intros ->.
  - unfold cell. by intros ->.
  - by intros ->.
Qed.

(** [searchDocuments] has no loop: it settles. *)
Lemma searchDocuments_settles setId queryEmbedding limit filters w :
  (searchDocuments setId queryEmbedding limit filters w).2 ≠ OutOfFuel.
Proof.
  destruct (searchDocuments _ _ _ _ w) as [w' r] eqn:Hrun.
  by apply run_searchDocuments in Hrun as (evs & _ & Hr & _).
Qed.
End Search.

(** * Further properties *)

(** ** Shaping and reconstruction *)

Lemma split_comma_cons (s : string) : ∃ p ps, split_comma s = p :: ps.
Proof.
  destruct (split_comma s) as [|p ps] eqn:Hs; [|by eauto].
  by apply split_comma_not_nil in Hs.
Qed.

Lemma split_comma_append a b :
  split_comma (a +:+ "," +:+ b) = split_comma a ++ split_comma b.
Proof.
  induction a as [|c r IH]; [done|]. simpl in *. rewrite IH.
  destruct (is_comma c); [done|].
  by destruct (split_comma_cons r) as (p & ps & ->).
Qed.

Lemma split_comma_join l :
  l ≠ [] → split_comma (join_strings "," l) = l ≫= split_comma.
Proof.
  intros Hl. induction l as [|s l IH]; [done|].
  destruct l as [|s' l].
  - simpl. by rewrite app_nil_r.
  - change (join_strings "," (s :: s' :: l)) with (s +:+ "," +:+ join_strings "," (s' :: l)).
    rewrite split_comma_append, IH by done. done.
Qed.

Lemma split_comma_pieces s : Forall (λ p, has_comma p = false) (split_comma s).
Proof.
  induction s as [|c r IH]; simpl; [by repeat constructor|].
  destruct (is_comma c) eqn:Hc; [by constructor|].
  destruct (split_comma r) as [|p ps]; [by repeat constructor; simpl; rewrite Hc|].
  apply Forall_cons in IH as [Hp Hps]. constructor; [|done]. simpl. by rewrite Hc, Hp.
Qed.

Lemma trimStart_head s :
  trimStart s = "" ∨ ∃ c r, trimStart s = String c r ∧ is_space c = false.
Proof.
  induction s as [|c r IH]; simpl; [by left|].
  destruct (is_space c) eqn:Hc; [done|]. right. by exists c, r.
Qed.

Lemma trimEnd_head c r :
  is_space c = false → ∃ r', trimEnd (String c r) = String c r'.
Proof. intros Hc. simpl. rewrite Hc. destruct (trimEnd r); by eauto. Qed.

Lemma trimEnd_idempotent s : trimEnd (trimEnd s) = trimEnd s.
Proof.
  induction s as [|c r IH]; [done|]. simpl.
  destruct (trimEnd r) as [|c' r'] eqn:Hr.
  - destruct (is_space c) eqn:Hc; [done|]. simpl. by rewrite Hc.
  - simpl in *. by rewrite IH.
Qed.

Lemma trim_idempotent s : trim (trim s) = trim s.
Proof.
  unfold trim. destruct (trimStart_head s) as [-> | (c & r & -> & Hc)]; [done|].
  destruct (trimEnd_head c r Hc) as [r' Hr']. rewrite Hr'. simpl trimStart. rewrite Hc.
  rewrite <- Hr'. apply trimEnd_idempotent.
Qed.

Lemma has_comma_trimStart s : has_comma s = false → has_comma (trimStart s) = false.
Proof.
  induction s as [|c r IH]; [done|]. simpl.
  intros [Hc Hr]%orb_false_elim. destruct (is_space c); [by apply IH|].
  simpl. by rewrite Hc, Hr.
Qed.

Lemma has_comma_trimEnd s : has_comma s = false → has_comma (trimEnd s) = false.
Proof.
  induction s as [|c r IH]; [done|]. simpl.
  intros [Hc Hr]%orb_false_elim. specialize (IH Hr).
  destruct (trimEnd r) as [|c' r'].
  - destruct (is_space c); [done|]. simpl. by rewrite Hc.
  - simpl in *. by rewrite Hc, IH.
Qed.

Lemma split_trim_filter_clean_pieces s :
  Forall (λ p, clean p = true) (split_trim_filter s).
Proof.
  unfold split_trim_filter. apply Forall_forall. intros p Hp.
  apply list_elem_of_In, filter_In in Hp as [Hp Hne].
  apply in_map_iff in Hp as (q & <- & Hq).
  pose proof (split_comma_pieces s) as Hall. rewrite Forall_forall in Hall.
  specialize (Hall q ltac:(by apply list_elem_of_In)).
  unfold clean. rewrite Hne, trim_idempotent, String.eqb_refl.
  unfold trim at 1. by rewrite has_comma_trimEnd by by apply has_comma_trimStart.
Qed.

Lemma rebuild_rebuild v : rebuild (rebuild v) = rebuild v.
Proof. destruct v as [| | | |s|]; try done. simpl. by destruct (nonempty s) eqn:Hs; simpl; rewrite ?Hs. Qed.

(** Reconstructing twice is reconstructing once. *)
Theorem reconstruct_metadata_idempotent (metadata : Obj) :
  reconstruct_metadata (reconstruct_metadata metadata) = reconstruct_metadata metadata.
Proof.
  apply map_eq. intros k. rewrite !lookup_reconstruct_metadata.
  destruct (is_list_field k); [|done].
  destruct (metadata !! k) as [v|]; [|done]. simpl. by rewrite rebuild_rebuild.
Qed.

(** Reconstruction changes only the four list fields; a non-empty string
    stored in one of them becomes a list of strings that are not empty, have
    no comma and no white space at either end. *)
Theorem reconstruct_metadata_gives_clean_lists (metadata : Obj) k :
  (is_list_field k = false → reconstruct_metadata metadata !! k = metadata !! k) ∧
  (∀ s, is_list_field k = true → metadata !! k = Some (VStr s) → nonempty s = true →
        ∃ l, reconstruct_metadata metadata !! k = Some (VArr (VStr <$> l)) ∧
             l = List.filter nonempty (List.map trim (split_comma s)) ∧
             Forall (λ e, clean e = true) l).
Proof.
  rewrite lookup_reconstruct_metadata. split.
  - by intros ->.
  - intros s -> -> Hs. simpl. rewrite Hs. eexists. split; [done|]. split; [done|].
    apply split_trim_filter_clean_pieces.
Qed.

Lemma forallb_clean l :
  Forall (λ s, clean s = true) l →
  forallb (λ e, match e with VStr s => clean s | _ => false end) (VStr <$> l) = true.
Proof. induction 1 as [|e l He _ IH]; [done|]. simpl. by rewrite He. Qed.

Section MoreCodec.
Context `{!NumberConversions}.

(** The shaped metadata has the five required fields and no field outside
    the sixteen of a metadata record. *)
Theorem shape_metadata_fields md :
  Forall (λ k, is_Some (shape_metadata md !! k)) required_fields ∧
  ∀ k, is_Some (shape_metadata md !! k) → k ∈ metadata_fields.
Proof.
  split.
  - repeat constructor; (simplify_lookups lookup_reconstruct_metadata lookup_shape);
      repeat match goal with |- context [if ?c then _ else _] => destruct c end; by eexists.
  - intros k. rewrite lookup_shape.
    repeat match goal with
           | |- context [String.eqb ?lit k] =>
               destruct (String.eqb_spec lit k) as [<-|_];
               [intros _; unfold metadata_fields, required_fields, optional_string_fields,
                  optional_number_fields, optional_list_fields; set_solver|]
           end.
    rewrite ?andb_false_r. by intros [? ?].
Qed.

(** What a list of strings in a list field reads back as: the pieces
    between the commas of all its elements, trimmed, without the empty
    ones; and the empty string when the elements are all empty or there is
    none. *)
Theorem list_field_reads_back_split md k l :
  k ∈ list_fields →
  prop md k = VArr (VStr <$> l) →
  prop (reconstruct_metadata (shape_metadata md)) k =
    if nonempty (join_strings "," l)
    then VArr (VStr <$> List.filter nonempty (List.map trim (l ≫= split_comma)))
    else VStr "".
Proof.
  intros Hk Hl. unfold list_fields, optional_list_fields in Hk. fields Hk.
  all: unfold prop at 1; (simplify_lookups lookup_reconstruct_metadata lookup_shape).
  all: rewrite Hl; simpl; rewrite join_of_strings.
  all: destruct (nonempty (join_strings "," l)) eqn:Hjoin; simpl; rewrite ?Hjoin; simpl.
  all: try (destruct (join_strings "," l); done).
  all: try (unfold split_trim_filter; rewrite split_comma_join; [done|by intros ->]).
Qed.

(** A list that reconstruction produced, when it is not empty, is given
    back unchanged by shaping and reconstructing again. *)
Theorem reconstructed_list_round_trips md (stored : Obj) k s :
  k ∈ list_fields →
  stored !! k = Some (VStr s) → nonempty s = true →
  prop md k = prop (reconstruct_metadata stored) k →
  prop md k ≠ VArr [] →
  prop (reconstruct_metadata (shape_metadata md)) k = prop md k.
Proof.
  intros Hk Hs Hne Hmd Hnil.
  assert (Hlist : is_list_field k = true).
  { unfold list_fields, optional_list_fields in Hk. by fields Hk. }
  pose proof (split_trim_filter_clean_pieces s) as Hall.
  unfold prop in Hmd at 2. rewrite lookup_reconstruct_metadata, Hlist, Hs in Hmd.
  simpl in Hmd. rewrite Hne in Hmd. simpl in Hmd.
  set (l := split_trim_filter s) in *.
  assert (Hcl : clean_list (prop md k) = true).
  { rewrite Hmd in Hnil |- *. destruct l as [|e l]; [done|].
    by apply (forallb_clean (e :: l)). }
  unfold list_fields, optional_list_fields in Hk. fields Hk.
  all: unfold prop at 1; (simplify_lookups lookup_reconstruct_metadata lookup_shape).
  all: rewrite ?(truthy_clean_list _ Hcl); simpl.
  2-4: by apply rebuild_csv_clean.
  rewrite <- (rebuild_csv_clean _ Hcl) at 2. by destruct (prop md "keywords").
Qed.
End MoreCodec.

(** ** Health check and the life of a set *)

Section LifecycleProperties.
Context {B H : Type} `{!Host B H} `{!Lifecycle B H} `{!NumberConversions}.
Implicit Types w : World B H.

Lemma run_perform {A} (op : B → B * response A) w w' r :
  perform op w = (w', r) →
  collections w' = collections w ∧ backend w' = (op (backend w)).1 ∧
  issued w' = issued w ∧ clock_reads w' = clock_reads w ∧
  r = match (op (backend w)).2 with
      | Resolved a => Ok a
      | Rejected message => Thrown message
      end.
Proof. unfold perform. destruct (op (backend w)) as [b resp]. by intros [= <- <-]. Qed.

(** [healthCheck] never fails: it answers whether the heartbeat resolved,
    and leaves the handles alone. *)
Theorem healthCheck_never_throws w :
  ∃ answer,
    (healthCheck w).2 = Ok answer ∧
    (answer = true ↔ ∃ beat, (client_heartbeat (backend w)).2 = Resolved beat) ∧
    collections (healthCheck w).1 = collections w ∧
    backend (healthCheck w).1 = (client_heartbeat (backend w)).1.
Proof.
  unfold healthCheck, try_catch, mbind, M_bind, perform, mret, M_ret.
  destruct (client_heartbeat (backend w)) as [b [beat|message]]; simpl.
  - exists true. split_and!; try done. split; [by eauto|done].
  - exists false. split_and!; try done. split; [done|by intros [? ?]].
Qed.

(** [createDocumentSet] asks for a collection with the description, or "",
    and the time as metadata. When the backend makes it, the handle is
    kept under the name and the set is returned with no documents; when it
    does not, the failure is passed on and no handle is kept. *)
Theorem createDocumentSet_keeps_the_handle name description w w' r :
  createDocumentSet name description w = (w', r) →
  let metadata : Obj :=
    <["created_at" := VStr (toISOString (clock_reads w))]>
    (<["description" := VStr (description_or_empty description)]> ∅) in
  backend w' = (client_createCollection name metadata (backend w)).1 ∧
  issued w' = issued w ∧
  match (client_createCollection name metadata (backend w)).2 with
  | Resolved collection =>
      r = Ok {| ds_id := name; ds_name := name;
                ds_description := VStr (description_or_empty description);
                ds_created_at := Date_at (S (clock_reads w));
                ds_document_count := 0 |} ∧
      collections w' = <[name := collection]> (collections w)
  | Rejected message =>
      r = Thrown ("Failed to create document set: " +:+ message) ∧
      collections w' = collections w
  end.
Proof.
  unfold createDocumentSet. rewrite run_try_catch.
  unfold mbind, M_bind, new_Date_toISOString, perform, collections_set, new_Date, mret, M_ret.
  simpl. destruct (client_createCollection _ _ (backend w)) as [b [collection|message]]; simpl.
  - by intros [= <- <-].
  - by intros [= <- <-].
Qed.

Lemma run_or_Date_now value w :
  ∃ w', or_Date_now value w =
          (w', Ok (if truthy value then value else VNum (DateNow (clock_reads w)))) ∧
        collections w' = collections w ∧ backend w' = backend w ∧ issued w' = issued w.
Proof.
  unfold or_Date_now. destruct (truthy value); [by exists w|].
  unfold mbind, M_bind, Date_now, mret, M_ret. by eexists.
Qed.

Lemma run_document_set_of name collection count w :
  ∃ w',
    document_set_of name collection count w =
      (w', Ok {| ds_id := name; ds_name := name;
                 ds_description :=
                   js_or (prop (default ∅ (collection_metadata collection)) "description")
                         (VStr "");
                 ds_created_at :=
                   Date_of (let stored := prop (default ∅ (collection_metadata collection))
                                               "created_at" in
                            if truthy stored then stored
                            else VNum (DateNow (clock_reads w)));
                 ds_document_count := count |}) ∧
    collections w' = collections w ∧ backend w' = backend w ∧ issued w' = issued w.
Proof.
  unfold document_set_of.
  destruct (run_or_Date_now (prop (default ∅ (collection_metadata collection)) "created_at") w)
    as (w' & Hrun & Hframe).
  exists w'. unfold mbind, M_bind. by rewrite Hrun.
Qed.

(** [getDocumentSet] never fails and never uses or fills the handle cache:
    it asks for the collection and its count, answers [null] when either
    is refused, and otherwise the set under the name asked, with that
    count, the stored description or "", and the stored creation time or
    the time of the clock. *)
Theorem getDocumentSet_answers_null_on_failure setId w w' r :
  getDocumentSet setId w = (w', r) →
  collections w' = collections w ∧
  ((∃ message, issued w' = issued w ++ [EvGetCollection setId (Rejected message)] ∧
               r = Ok None) ∨
   (∃ collection message,
      issued w' = issued w ++ [EvGetCollection setId (Resolved collection);
                               EvCount collection (Rejected message)] ∧
      r = Ok None) ∨
   (∃ collection count set,
      issued w' = issued w ++ [EvGetCollection setId (Resolved collection);
                               EvCount collection (Resolved count)] ∧
      r = Ok (Some set) ∧
      ds_id set = setId ∧ ds_name set = setId ∧ ds_document_count set = count ∧
      ds_description set =
        js_or (prop (default ∅ (collection_metadata collection)) "description") (VStr "") ∧
      ds_created_at set =
        Date_of (let stored := prop (default ∅ (collection_metadata collection)) "created_at" in
                 if truthy stored then stored else VNum (DateNow (clock_reads w))))).
Proof.
  unfold getDocumentSet, try_catch.
  match goal with |- match ?body with _ => _ end = _ → _ =>
    destruct body as [w1 r1] eqn:Hbody end.
  apply run_bind in Hbody
    as [(w0 & collection & Hget & Hbody) | [(message & Hget & ->) | [Hget ->]]];
    apply run_await in Hget as (resp & _ & Hc0 & _ & Hi0 & Ht0 & Hr0);
    destruct resp as [collection'|message']; try done.
  2:{ intros [= <- <-]. split; [done|]. left. by exists message'. }
  injection Hr0 as ->.
  apply run_bind in Hbody
    as [(wc & count & Hcount & Hbody) | [(message & Hcount & ->) | [Hcount ->]]];
    apply run_await in Hcount as (resp & _ & Hc1 & _ & Hi1 & Ht1 & Hr1);
    destruct resp as [count'|message']; try done.
  2:{ intros [= <- <-]. split; [congruence|]. right. left.
      exists collection', message'. by rewrite Hi1, Hi0, <- app_assoc. }
  injection Hr1 as ->.
  destruct (run_document_set_of setId collection' count' wc) as (w2 & Hset & Hc2 & _ & Hi2).
  unfold mbind, M_bind in Hbody. rewrite Hset in Hbody. injection Hbody as <- <-.
  intros [= <- <-]. split; [congruence|]. right. right.
  eexists collection', count', _. split_and!; try done.
  - by rewrite Hi2, Hi1, Hi0, <- app_assoc.
  - simpl. by rewrite Ht1, Ht0.
Qed.
Lemma run_count_each cols w :
  ∃ w' resps,
    count_each cols w = (w', Ok (zip cols resps)) ∧ length resps = length cols ∧
    collections w' = collections w ∧ clock_reads w' = clock_reads w ∧
    issued w' = issued w ++ zip_with EvCount cols resps.
Proof.
  revert w. induction cols as [|col cols IH]; intros w.
  { exists w, []. by rewrite app_nil_r. }
  cbn [count_each]. unfold mbind at 1, M_bind at 1, try_catch.
  destruct ((await (EvCount col) (collection_count col) ≫= λ count, mret (Resolved count)) w)
    as [w1 r1] eqn:Hcount.
  apply run_bind in Hcount
    as [(wc & count & Hcount & Hret) | [(message & Hcount & ->) | [Hcount ->]]];
    apply run_await in Hcount as (resp & _ & Hc & _ & Hi & Ht & Hr);
    destruct resp as [count'|message']; try done.
  - injection Hr as ->. injection Hret as <- <-.
    destruct (IH wc) as (w2 & resps & Hrest & Hlen & Hc2 & Ht2 & Hi2).
    exists w2, (Resolved count' :: resps). unfold mbind, M_bind. rewrite Hrest.
    split_and!; simpl; try done; try congruence. by rewrite Hi2, Hi, <- app_assoc.
  - injection Hr as ->. unfold mret at 1, M_ret at 1.
    destruct (IH w1) as (w2 & resps & Hrest & Hlen & Hc2 & Ht2 & Hi2).
    exists w2, (Rejected message' :: resps). unfold mbind, M_bind. rewrite Hrest.
    split_and!; simpl; try done; try congruence. by rewrite Hi2, Hi, <- app_assoc.
Qed.

Lemma run_build_each cols resps w :
  length resps = length cols →
  ∃ w' built,
    build_each (zip cols resps) w = (w', Ok built) ∧
    collections w' = collections w ∧ issued w' = issued w ∧
    Forall2 built_for built (zip cols resps).
Proof.
  revert resps w. induction cols as [|col cols IH]; intros [|resp resps] w Hlen; try done.
  { exists w, []. by split_and!. }
  injection Hlen as Hlen. cbn [zip zip_with build_each]. destruct resp as [count|message].
  - destruct (run_document_set_of (collection_name col) col count w)
      as (w1 & Hset & Hc1 & _ & Hi1).
    destruct (IH resps w1 Hlen) as (w2 & built & Hrest & Hc2 & Hi2 & Hall).
    eexists w2, (_ :: built). unfold mbind, M_bind. rewrite Hset.
    unfold mbind, M_bind in Hrest. rewrite Hrest. split_and!; try done; try congruence.
    constructor; [|done]. unfold built_for, describes. simpl. by eexists.
  - destruct (IH resps w Hlen) as (w2 & built & Hrest & Hc2 & Hi2 & Hall).
    eexists w2, (_ :: built). unfold mbind, M_bind.
    unfold mbind, M_bind in Hrest. rewrite Hrest. split_and!; try done.
    by constructor.
Qed.

Lemma run_Promise_all {A} (settled : list (response A)) w :
  (∃ values, settled = Resolved <$> values ∧ Promise_all settled w = (w, Ok values)) ∨
  (∃ message, Rejected message ∈ settled ∧ Promise_all settled w = (w, Thrown message)).
Proof.
  induction settled as [|[a|message] settled IH].
  - left. by exists [].
  - destruct IH as [(values & -> & Hrun) | (message & Hin & Hrun)].
    + left. exists (a :: values). split; [done|]. simpl. unfold mbind, M_bind. by rewrite Hrun.
    + right. exists message. split; [by right|]. simpl. unfold mbind, M_bind. by rewrite Hrun.
  - right. exists message. split; [by left|done].
Qed.

Lemma run_listDocumentSets w w' r :
  listDocumentSets w = (w', r) →
  match (client_listCollections (backend w)).2 with
  | Rejected message =>
      r = Thrown ("Failed to list document sets: " +:+ message) ∧
      issued w' = issued w ∧ collections w' = collections w
  | Resolved cols =>
      ∃ resps built,
        length resps = length cols ∧
        issued w' = issued w ++ zip_with EvCount cols resps ∧
        collections w' = collections w ∧
        Forall2 built_for built (zip cols resps) ∧
        ((∃ sets, built = Resolved <$> sets ∧ r = Ok sets) ∨
         (∃ message, Rejected message ∈ built ∧ r = Thrown message))
  end.
Proof.
  unfold listDocumentSets. intros Hrun.
  apply run_bind in Hrun as [(w0 & cols & Hcols & Hrun) | [(message & Hcols & ->) | [Hcols ->]]];
    rewrite run_try_catch in Hcols;
    destruct (perform client_listCollections w) as [wl rl] eqn:Hlist;
    apply run_perform in Hlist as (Hc0 & _ & Hi0 & Ht0 & ->);
    destruct ((client_listCollections (backend w)).2) as [cols'|message']; try done.
  2:{ by injection Hcols as <- <-. }
  injection Hcols as <- <-.
  destruct (run_count_each cols' wl) as (w1 & resps & Hcount & Hlen & Hc1 & Ht1 & Hi1).
  destruct (run_build_each cols' resps w1 Hlen) as (w2 & built & Hbuild & Hc2 & Hi2 & Hall).
  apply run_bind in Hrun as [(? & ? & Hcount' & Hrun) | [(? & Hcount' & _) | [Hcount' _]]];
    rewrite Hcount in Hcount'; try done. injection Hcount' as <- <-.
  apply run_bind in Hrun as [(? & ? & Hbuild' & Hrun) | [(? & Hbuild' & _) | [Hbuild' _]]];
    rewrite Hbuild in Hbuild'; try done. injection Hbuild' as <- <-.
  exists resps, built.
  destruct (run_Promise_all built w2) as [(sets & Hsets & Hall') | (message & Hin & Hall')];
    rewrite Hall' in Hrun; injection Hrun as <- <-.
  - split_and!; try done; try congruence. left. by exists sets.
  - split_and!; try done; try congruence. right. by exists message.
Qed.

Lemma built_all_resolved cols resps sets :
  length resps = length cols →
  Forall2 built_for (Resolved <$> sets) (zip cols resps) →
  ∃ counts,
    resps = Resolved <$> counts ∧
    Forall2 (λ set cc, describes set cc.1 cc.2) sets (zip cols counts).
Proof.
  revert resps sets.
  induction cols as [|col cols IH]; intros [|resp resps] sets Hlen Hall; try done.
  { exists []. apply Forall2_nil_inv_r in Hall. destruct sets; [|done]. by split. }
  injection Hlen as Hlen. destruct sets as [|set sets]; [by apply Forall2_nil_inv_l in Hall|].
  cbn [zip zip_with] in Hall. rewrite fmap_cons in Hall.
  apply Forall2_cons in Hall as [Hset Hall]. unfold built_for in Hset. simpl in Hset.
  destruct resp as [count|message]; [|done].
  destruct Hset as (set' & [= <-] & Hset).
  destruct (IH resps sets Hlen Hall) as (counts & -> & Hsets).
  exists (count :: counts). split; [done|]. by constructor.
Qed.

Lemma built_rejected cols resps built message :
  length resps = length cols →
  Forall2 built_for built (zip cols resps) →
  Rejected message ∈ built → Rejected message ∈ resps.
Proof.
  revert resps built.
  induction cols as [|col cols IH]; intros [|resp resps] built Hlen Hall Hin; try done.
  { apply Forall2_nil_inv_r in Hall as ->. by apply elem_of_nil in Hin. }
  injection Hlen as Hlen. cbn [zip zip_with] in Hall.
  apply Forall2_cons_inv_r in Hall as (b & built' & Hb & Hall & ->).
  apply elem_of_cons in Hin as [<- | Hin].
  - unfold built_for in Hb. simpl in Hb. destruct resp as [count|message'].
    + by destruct Hb as (? & ? & _).
    + injection Hb as ->. by left.
  - right. by eapply IH.
Qed.

(** When [listDocumentSets] succeeds it has asked the count of every
    collection listed, in their order, and answers one set for each, in
    that order, with the name of the collection as id and name, the count
    answered, and the stored description or "". *)
Theorem listDocumentSets_lists_every_collection w w' sets :
  listDocumentSets w = (w', Ok sets) →
  ∃ cols counts,
    (client_listCollections (backend w)).2 = Resolved cols ∧
    length counts = length cols ∧
    issued w' = issued w ++ zip_with (λ col count, EvCount col (Resolved count)) cols counts ∧
    Forall2 (λ set cc,
               ds_id set = collection_name cc.1 ∧ ds_name set = collection_name cc.1 ∧
               ds_document_count set = cc.2 ∧
               ds_description set =
                 js_or (prop (default ∅ (collection_metadata cc.1)) "description") (VStr ""))
            sets (zip cols counts).
Proof.
  intros Hrun%run_listDocumentSets.
  destruct ((client_listCollections (backend w)).2) as [cols|message]; [|by destruct Hrun].
  destruct Hrun as (resps & built & Hlen & Hi & _ & Hall & [(sets' & -> & [= <-]) | (? & _ & ?)]);
    [|done].
  destruct (built_all_resolved cols resps sets Hlen Hall) as (counts & -> & Hsets).
  exists cols, counts. rewrite length_fmap in Hlen. split_and!; try done.
  rewrite Hi. f_equal. clear. revert counts.
  induction cols as [|col cols IH]; intros [|count counts]; simpl; try done. by rewrite IH.
Qed.

(** How [listDocumentSets] fails: with "Failed to list document sets: " and
    the message when the listing is refused, without any count asked; and,
    when the listing went through, with the message of a count that was
    refused, as it is, every count having been asked. *)
Theorem listDocumentSets_passes_count_failures_on w w' x :
  listDocumentSets w = (w', Thrown x) →
  match (client_listCollections (backend w)).2 with
  | Rejected message =>
      x = "Failed to list document sets: " +:+ message ∧ issued w' = issued w
  | Resolved cols =>
      ∃ resps,
        length resps = length cols ∧
        issued w' = issued w ++ zip_with EvCount cols resps ∧
        Rejected x ∈ resps
  end.
Proof.
  intros Hrun%run_listDocumentSets.
  destruct ((client_listCollections (backend w)).2) as [cols|message].
  - destruct Hrun as (resps & built & Hlen & Hi & _ & Hall & [(? & _ & ?) | (? & Hin & [= <-])]);
      [done|].
    exists resps. split_and!; try done. by eapply built_rejected.
  - by destruct Hrun as ([= <-] & Hi & _).
Qed.

(** [deleteDocument] asks the collection to delete the one id it was
    given. When the handle cannot be had, nothing is deleted. A failure is
    passed on after "Failed to delete document: ". *)
Theorem deleteDocument_deletes_one_id setId documentId w w' r :
  deleteDocument setId documentId w = (w', r) →
  (∃ w1 collection,
     resolve setId w = (w1, Ok collection) ∧
     collections w' = collections w1 ∧ issued w' = issued w1 ∧
     backend w' = (collection_delete collection [documentId] (backend w1)).1 ∧
     r = match (collection_delete collection [documentId] (backend w1)).2 with
         | Resolved _ => Ok ()
         | Rejected message => Thrown ("Failed to delete document: " +:+ message)
         end) ∨
  (∃ message,
     resolve setId w = (w', Thrown message) ∧
     r = Thrown ("Failed to delete document: " +:+ message)).
Proof.
  unfold deleteDocument. rewrite run_try_catch.
  match goal with |- match ?body with _ => _ end = _ → _ =>
    destruct body as [w1 r1] eqn:Hbody end.
  apply run_bind in Hbody
    as [(w0 & collection & Hres & Hbody) | [(message & Hres & ->) | [Hres ->]]].
  - apply run_perform in Hbody as (Hc & Hb & Hi & _ & ->).
    intros Hr. left. exists w0, collection.
    destruct ((collection_delete collection [documentId] (backend w0)).2) as [[]|message];
      by injection Hr as <- <-.
  - intros [= <- <-]. right. by exists message.
  - by apply run_resolve_events in Hres as (? & _ & _ & ? & _).
Qed.

(** [deleteDocumentSet] forgets the handle of the set, and no other, when
    the backend has deleted the collection; when the backend refuses, the
    handles stay as they are and the failure is passed on after "Failed to
    delete document set: ". *)
Theorem deleteDocumentSet_forgets_the_handle setId w w' r :
  deleteDocumentSet setId w = (w', r) →
  backend w' = (client_deleteCollection setId (backend w)).1 ∧
  issued w' = issued w ∧
  match (client_deleteCollection setId (backend w)).2 with
  | Resolved _ => r = Ok () ∧ collections w' = delete setId (collections w)
  | Rejected message =>
      r = Thrown ("Failed to delete document set: " +:+ message) ∧
      collections w' = collections w
  end.
Proof.
  unfold deleteDocumentSet. rewrite run_try_catch.
  unfold mbind, M_bind, perform, collections_delete.
  destruct (client_deleteCollection setId (backend w)) as [b [[]|message]]; simpl;
    by intros [= <- <-].
Qed.
End LifecycleProperties.

(** ** Handles and failures of [listDocuments], [addDocuments] and
    [searchDocuments] *)

Section Traces.
Context {B H : Type} `{!Host B H} `{!Lifecycle B H} `{!NumberConversions}.
Implicit Types w : World B H.

Lemma fails_fast_nil {A} (a : A) : fails_fast (H := H) "" [] (Ok a).
Proof. constructor. Qed.

Lemma fails_fast_app {A} prefix (evs1 evs2 : list (Event H)) (r : outcome A) :
  Forall (λ ev, resolved ev = true) evs1 →
  fails_fast prefix evs2 r → fails_fast prefix (evs1 ++ evs2) r.
Proof.
  intros H1. destruct r as [a|x|]; simpl; [|intros (evs0 & ev & message & -> & Hres0 & Hrest)|done].
  - intros H2. by apply Forall_app.
  - exists (evs1 ++ evs0), ev, message. rewrite app_assoc. split; [done|].
    split; [by apply Forall_app|done].
Qed.

Lemma fails_fast_ok {A} prefix (evs : list (Event H)) (a : A) :
  fails_fast prefix evs (Ok a) → Forall (λ ev, resolved ev = true) evs.
Proof. done. Qed.

Lemma fails_fast_wrap {A} prefix (evs : list (Event H)) (r : outcome A) :
  fails_fast "" evs r →
  fails_fast prefix evs match r with
                        | Thrown message => Thrown (prefix +:+ message)
                        | settled => settled
                        end.
Proof.
  destruct r as [a|x|]; simpl; [done| |done].
  intros (evs0 & ev & message & -> & Hres0 & Hev & ->). by exists evs0, ev, message.
Qed.

Lemma await_trace {A} (ev : response A → Event H) op (c : H) w w' r :
  (∀ resp, rejection (ev resp)
           = match resp with Rejected message => Some message | Resolved _ => None end) →
  (∀ resp, on_handle c (ev resp)) →
  await ev op w = (w', r) →
  ∃ resp,
    issued w' = issued w ++ [ev resp] ∧ collections w' = collections w ∧
    clock_reads w' = clock_reads w ∧
    r = match resp with Resolved a => Ok a | Rejected message => Thrown message end ∧
    Forall (on_handle c) [ev resp] ∧ fails_fast "" [ev resp] r.
Proof.
  intros Hrej Hon (resp & _ & Hc & _ & Hi & Ht & ->)%run_await.
  exists resp. split_and!; try done; [by repeat constructor|].
  destruct resp as [a|message]; simpl.
  - repeat constructor. unfold resolved. by rewrite Hrej.
  - exists [], (ev (Rejected message)), message. by rewrite Hrej.
Qed.

Lemma run_resolve_cache setId w w' r :
  resolve setId w = (w', r) →
  match collections w !! setId with
  | Some c => w' = w ∧ r = Ok c
  | None =>
      ∃ resp,
        issued w' = issued w ++ [EvGetCollection setId resp] ∧
        match resp with
        | Resolved c => r = Ok c ∧ collections w' = <[setId := c]> (collections w)
        | Rejected message => r = Thrown message ∧ collections w' = collections w
        end
  end.
Proof.
  unfold resolve. destruct (collections w !! setId) as [c|]; [by intros [= <- <-]|].
  intros Hrun.
  apply run_bind in Hrun as [(w1 & c & Hget & Hrun) | [(message & Hget & ->) | [Hget ->]]];
    apply run_await in Hget as (resp & _ & Hc1 & _ & Hi1 & _ & Hr1);
    destruct resp as [c'|message']; try done.
  - injection Hr1 as ->. unfold collections_set, mbind, M_bind, mret, M_ret in Hrun.
    injection Hrun as <- <-. exists (Resolved c'). simpl. by rewrite Hc1.
  - injection Hr1 as ->. by exists (Rejected message').
Qed.

(** A method that resolves the handle of [setId] and then works on it. *)
Lemma with_handle_trace {A} setId prefix (rest : H → M B H A) w w' r :
  (∀ c w0 w1 r1, rest c w0 = (w1, r1) →
     ∃ evs, issued w1 = issued w0 ++ evs ∧ collections w1 = collections w0 ∧
            Forall (on_handle c) evs ∧ fails_fast "" evs r1) →
  try_catch (resolve setId ≫= rest) (λ message, throw (prefix +:+ message)) w = (w', r) →
  ∃ evs,
    issued w' = issued w ++ evs ∧
    uses_one_handle setId prefix w w' evs r ∧ fails_fast prefix evs r.
Proof.
  intros Hrest. rewrite run_try_catch.
  destruct ((resolve setId ≫= rest) w) as [w1 r1] eqn:Hbody.
  intros Hr.
  assert (Hr' : w1 = w' ∧ r = match r1 with
                              | Thrown message => Thrown (prefix +:+ message)
                              | settled => settled
                              end).
  { by destruct r1; injection Hr as <- <-. }
  destruct Hr' as [<- ->]. clear Hr.
  apply run_bind in Hbody
    as [(w0 & c & Hres & Hbody) | [(message & Hres & ->) | [Hres ->]]].
  - apply Hrest in Hbody as (evs & Hi & Hc & Hon & Hff).
    apply run_resolve_cache in Hres. unfold uses_one_handle.
    destruct (collections w !! setId) as [c0|].
    + destruct Hres as [-> [= ->]]. exists evs. split_and!; try done.
      by apply fails_fast_wrap.
    + destruct Hres as ([c'|message'] & Hi0 & Hres); destruct Hres as [[= <-] Hc0].
      exists (EvGetCollection setId (Resolved c) :: evs).
      split_and!.
      * by rewrite Hi, Hi0, <- app_assoc.
      * exists (Resolved c), evs. split; [done|]. split; [congruence|done].
      * apply fails_fast_wrap.
        by apply (fails_fast_app "" [EvGetCollection setId (Resolved c)]); [repeat constructor|].
  - apply run_resolve_cache in Hres. unfold uses_one_handle.
    destruct (collections w !! setId) as [c0|]; [by destruct Hres|].
    destruct Hres as ([c'|message'] & Hi0 & Hres); destruct Hres as [[= <-] Hc0].
    exists [EvGetCollection setId (Rejected message)]. split_and!; try done.
    + by exists (Rejected message), [].
    + by exists [], (EvGetCollection setId (Rejected message)), message.
  - by apply run_resolve_events in Hres as (? & _ & _ & ? & _).
Qed.
Lemma ceil_div_0 d : 0 < d → ceil_div 0 d = 0.
Proof. intros Hd. pose proof (ceil_div_le 0 d 0 Hd) as [_ Hle]. lia. Qed.

Lemma ceil_div_step n d : 0 < d → 0 < n → ceil_div n d = S (ceil_div (n - d) d).
Proof.
  intros Hd Hn.
  pose proof (ceil_div_le n d (S (ceil_div (n - d) d)) Hd) as [_ Hup].
  pose proof (ceil_div_le (n - d) d (ceil_div (n - d) d) Hd) as [Hb _].
  pose proof (ceil_div_le n d (ceil_div n d) Hd) as [Ha _].
  pose proof (ceil_div_le (n - d) d (ceil_div n d - 1) Hd) as [_ Hlow].
  pose proof (ceil_div_le n d 0 Hd) as [Hzero _].
  specialize (Hb ltac:(lia)). specialize (Ha ltac:(lia)).
  assert (ceil_div n d ≠ 0) by lia.
  assert (ceil_div n d ≤ S (ceil_div (n - d) d)) by (apply Hup; lia).
  assert (ceil_div (n - d) d ≤ ceil_div n d - 1) by (apply Hlow; nia).
  lia.
Qed.

Lemma visit_frame md docsById w :
  ∃ w' docsById',
    visit md docsById w = (w', Ok docsById') ∧
    collections w' = collections w ∧ issued w' = issued w.
Proof.
  unfold visit. destruct (negb _ || _); [by exists w, docsById|].
  destruct (prop md "created_at");
    unfold mbind, M_bind, mret, M_ret, new_Date_toISOString; by eexists _, _.
Qed.

Lemma visit_all_frame metadatas docsById w :
  ∃ w' docsById',
    visit_all metadatas docsById w = (w', Ok docsById') ∧
    collections w' = collections w ∧ issued w' = issued w.
Proof.
  revert docsById w. induction metadatas as [|md metadatas IH]; intros docsById w.
  { by exists w, docsById. }
  destruct (visit_frame md docsById w) as (w1 & docsById1 & Hvisit & Hc1 & Hi1).
  destruct (IH docsById1 w1) as (w2 & docsById2 & Hrest & Hc2 & Hi2).
  exists w2, docsById2. simpl. unfold mbind, M_bind. rewrite Hvisit, Hrest.
  split_and!; congruence.
Qed.

Lemma list_pages_trace fuel collection total offset docsById w w' r :
  list_pages fuel collection total offset docsById w = (w', r) →
  total ≤ offset + fuel →
  ∃ evs n,
    issued w' = issued w ++ evs ∧ collections w' = collections w ∧
    Forall (on_handle collection) evs ∧ fails_fast "" evs r ∧
    page_requests evs = (λ i, (pageSize, offset + i * pageSize)) <$> seq 0 n ∧
    n ≤ ceil_div (total - offset) pageSize ∧
    (∀ a, r = Ok a → n = ceil_div (total - offset) pageSize).
Proof.
  assert (Hp : 0 < pageSize) by (unfold pageSize; lia).
  revert offset docsById w. induction fuel as [|fuel IH]; intros offset docsById w.
  - unfold list_pages. case_decide; [lia|]. intros [= <- <-] _. exists [], 0.
    rewrite app_nil_r. replace (total - offset) with 0 by lia. rewrite ceil_div_0 by done.
    split_and!; try done. constructor.
  - cbn [list_pages]. case_decide as Hlt.
    2:{ intros [= <- <-] _. exists [], 0.
        rewrite app_nil_r. replace (total - offset) with 0 by lia. rewrite ceil_div_0 by done.
        split_and!; try done. constructor. }
    intros Hrun Hfuel.
    rewrite (ceil_div_step (total - offset) pageSize) by lia.
    apply run_bind in Hrun as [(w1 & batch & Hget & Hrun) | [(message & Hget & ->) | [Hget ->]]];
      apply (await_trace _ _ collection) in Hget
        as (resp & Hi1 & Hc1 & _ & Hr1 & Hon1 & Hff1);
      try (by intros []); try done;
      destruct resp as [batch'|message']; try done.
    2:{ exists [EvGet collection pageSize offset (Rejected message')], 1.
        split_and!; try done; try lia. simpl. by rewrite Nat.add_0_r. }
    injection Hr1 as ->.
    destruct (visit_all_frame (default [] (batch' ≫= get_metadatas)) docsById w1)
      as (w2 & docsById2 & Hvisit & Hc2 & Hi2).
    apply run_bind in Hrun as [(? & ? & Hvisit' & Hrun) | [(? & Hvisit' & _) | [Hvisit' _]]];
      rewrite Hvisit in Hvisit'; try done.
    injection Hvisit' as <- <-.
    apply IH in Hrun as (evs & n & Hi3 & Hc3 & Hon3 & Hff3 & Hpages & Hn & Hok);
      [|unfold pageSize; lia].
    exists (EvGet collection pageSize offset (Resolved batch') :: evs), (S n).
    split_and!.
    + by rewrite Hi3, Hi2, Hi1, <- app_assoc.
    + congruence.
    + by constructor.
    + by apply (fails_fast_app "" [EvGet collection pageSize offset (Resolved batch')]);
        [repeat constructor|].
    + unfold page_requests in *. cbn [omap list_omap page_request]. rewrite Hpages.
      cbn [seq fmap list_fmap]. rewrite Nat.add_0_r. f_equal.
      rewrite <- fmap_S_seq, <- list_fmap_compose. apply list_fmap_ext.
      intros _ i _. unfold compose. f_equal. lia.
    + replace (total - offset - pageSize) with (total - (offset + pageSize)) by lia. lia.
    + intros a Ha. rewrite (Hok a Ha). f_equal. f_equal. lia.
Qed.

(** What [listDocuments] does once it has the handle. *)
Lemma listing_trace collection w w' (r : outcome (list ListedDocument)) :
  (total ← await (EvCount collection) (collection_count collection);
   if decide (total = 0) then mret []
   else docsById ← list_pages total collection total 0 []; mret (Map_values docsById)) w
  = (w', r) →
  ∃ resp pages n,
    issued w' = issued w ++ EvCount collection resp :: pages ∧
    collections w' = collections w ∧
    Forall (on_handle collection) (EvCount collection resp :: pages) ∧
    fails_fast "" (EvCount collection resp :: pages) r ∧
    Forall (λ ev, is_page_fetch ev = true) pages ∧
    page_requests pages = (λ i, (pageSize, i * pageSize)) <$> seq 0 n ∧
    (∀ total, resp = Resolved total →
       n ≤ ceil_div total pageSize ∧ ∀ docs, r = Ok docs → n = ceil_div total pageSize).
Proof.
  intros Hrun.
  apply run_bind in Hrun as [(wc & total & Hcount & Hrun) | [(message & Hcount & ->) | [Hcount ->]]];
    apply (await_trace _ _ collection) in Hcount
      as (resp & Hi1 & Hc1 & _ & Hr1 & Hon1 & Hff1);
    try (by intros []); try done;
    destruct resp as [total'|message']; try done.
  2:{ exists (Rejected message'), [], 0. split_and!; try done. }
  injection Hr1 as ->. case_decide as Htotal.
  { injection Hrun as <- <-. exists (Resolved total'), [], 0. subst total'.
    split_and!; try done. intros total [= <-]. by rewrite ceil_div_0 by (unfold pageSize; lia). }
  apply run_bind in Hrun
    as [(wp & docsById & Hpages & Hrun) | [(message & Hpages & ->) | [Hpages ->]]].
  all: pose proof Hpages as Hgets;
    apply (run_list_pages _ _ _ _ _ _ _ _ (clock_reads wc) []) in Hgets
      as (evs' & Hi' & _ & Hgets & _); [|apply tracks_nil|lia|lia].
  all: apply list_pages_trace in Hpages as (evs & n & Hi2 & Hc2 & Hon2 & Hff2 & Hreq & Hn & Hok);
    [|lia].
  all: rewrite Hi2 in Hi'; apply app_inv_head in Hi' as <-.
  all: exists (Resolved total'), evs, n.
  all: rewrite Nat.sub_0_r in Hn, Hok.
  - injection Hrun as <- <-. split_and!; try done.
    + by rewrite Hi2, Hi1, <- app_assoc.
    + congruence.
    + by constructor.
    + apply (fails_fast_app "" [EvCount collection (Resolved total')]); [by repeat constructor|].
      by apply fails_fast_ok in Hff2.
    + intros total [= <-]. split; [done|]. intros docs _. by eapply Hok.
  - split_and!; try done.
    + by rewrite Hi2, Hi1, <- app_assoc.
    + congruence.
    + by constructor.
    + by apply (fails_fast_app "" [EvCount collection (Resolved total')]); [repeat constructor|].
    + intros total [= <-]. by split.
  - by destruct Hff2.
Qed.
Lemma add_batches_trace fuel collection documents i w w' r :
  add_batches fuel collection documents i w = (w', r) →
  length documents ≤ i + fuel →
  ∃ evs,
    issued w' = issued w ++ evs ∧ collections w' = collections w ∧
    Forall (on_handle collection) evs ∧ fails_fast "" evs r.
Proof.
  revert i w. induction fuel as [|fuel IH]; intros i w.
  - unfold add_batches. case_decide; [lia|]. intros [= <- <-] _. exists [].
    rewrite app_nil_r. split_and!; try done. constructor.
  - cbn [add_batches]. case_decide as Hlt.
    2:{ intros [= <- <-] _. exists []. rewrite app_nil_r. split_and!; try done. constructor. }
    intros Hrun Hfuel.
    apply run_bind in Hrun as [(w1 & [] & Hadd & Hrun) | [(message & Hadd & ->) | [Hadd ->]]];
      apply (await_trace _ _ collection) in Hadd
        as (resp & Hi1 & Hc1 & _ & Hr1 & Hon1 & Hff1);
      try (by intros []); try done;
      destruct resp as [[]|message']; try done.
    2:{ by eexists. }
    apply IH in Hrun as (evs & Hi2 & Hc2 & Hon2 & Hff2); [|unfold batchSize; lia].
    eexists (_ :: evs). split_and!.
    + by rewrite Hi2, Hi1, <- app_assoc.
    + congruence.
    + apply Forall_cons. split; [by apply Forall_cons in Hon1 as [? _]|done].
    + by apply (fails_fast_app "" [_]); [apply fails_fast_ok in Hff1|].
Qed.

Lemma listDocuments_trace setId w w' r :
  listDocuments setId w = (w', r) →
  ∃ evs,
    issued w' = issued w ++ evs ∧
    uses_one_handle setId "Failed to list documents: " w w' evs r ∧
    fails_fast "Failed to list documents: " evs r.
Proof.
  apply with_handle_trace. intros c w0 w1 r1 Hrest.
  apply listing_trace in Hrest as (resp & pages & n & Hi & Hc & Hon & Hff & _).
  by eexists.
Qed.

Lemma addDocuments_trace setId documents w w' r :
  addDocuments setId documents w = (w', r) →
  ∃ evs,
    issued w' = issued w ++ evs ∧
    uses_one_handle setId "Failed to add documents: " w w' evs r ∧
    fails_fast "Failed to add documents: " evs r.
Proof.
  apply with_handle_trace. intros c w0 w1 r1 Hrest.
  by apply add_batches_trace in Hrest; [|lia].
Qed.

Lemma searchDocuments_trace setId queryEmbedding limit filters w w' r :
  searchDocuments setId queryEmbedding limit filters w = (w', r) →
  ∃ evs,
    issued w' = issued w ++ evs ∧
    uses_one_handle setId "Failed to search documents: " w w' evs r ∧
    fails_fast "Failed to search documents: " evs r.
Proof.
  apply with_handle_trace. intros c w0 w1 r1 Hrest.
  apply run_bind in Hrest
    as [(wq & results & Hquery & Hrest) | [(message & Hquery & ->) | [Hquery ->]]];
    apply (await_trace _ _ c) in Hquery as (resp & Hi & Hc & _ & Hr & Hon & Hff);
    try (by intros []); try done;
    destruct resp as [results'|message']; try done.
  - injection Hr as ->. injection Hrest as <- <-. by eexists.
  - by eexists.
Qed.

(** [listDocuments] uses one handle: the one it has, without asking for
    it, or the one it asks for first and keeps. It stops at the first call
    that the backend refuses and fails with "Failed to list documents: " and
    the message of that call; it succeeds when no call was refused. *)
Theorem listDocuments_one_handle_and_first_failure setId w w' r evs :
  listDocuments setId w = (w', r) →
  issued w' = issued w ++ evs →
  uses_one_handle setId "Failed to list documents: " w w' evs r ∧
  fails_fast "Failed to list documents: " evs r.
Proof.
  intros (evs' & Hi & Hone & Hff)%listDocuments_trace Hevs.
  rewrite Hi in Hevs. by apply app_inv_head in Hevs as <-.
Qed.

(** The same of [addDocuments], with "Failed to add documents: ". *)
Theorem addDocuments_one_handle_and_first_failure setId documents w w' r evs :
  addDocuments setId documents w = (w', r) →
  issued w' = issued w ++ evs →
  uses_one_handle setId "Failed to add documents: " w w' evs r ∧
  fails_fast "Failed to add documents: " evs r.
Proof.
  intros (evs' & Hi & Hone & Hff)%addDocuments_trace Hevs.
  rewrite Hi in Hevs. by apply app_inv_head in Hevs as <-.
Qed.

(** The same of [searchDocuments], with "Failed to search documents: ". *)
Theorem searchDocuments_one_handle_and_first_failure
    setId queryEmbedding limit filters w w' r evs :
  searchDocuments setId queryEmbedding limit filters w = (w', r) →
  issued w' = issued w ++ evs →
  uses_one_handle setId "Failed to search documents: " w w' evs r ∧
  fails_fast "Failed to search documents: " evs r.
Proof.
  intros (evs' & Hi & Hone & Hff)%searchDocuments_trace Hevs.
  rewrite Hi in Hevs. by apply app_inv_head in Hevs as <-.
Qed.

(** The page fetches of [listDocuments] are for 500 records each, at the
    offsets 0, 500, 1000, ... in that order; there are at most
    [ceil(total / 500)] of them for the [total] that the count gave, and
    exactly that many when the listing succeeds. *)
Theorem listDocuments_fetches_pages_in_order setId w w' r evs collection total :
  listDocuments setId w = (w', r) →
  issued w' = issued w ++ evs →
  EvCount collection (Resolved total) ∈ evs →
  ∃ n,
    page_requests evs = (λ i, (pageSize, i * pageSize)) <$> seq 0 n ∧
    n ≤ ceil_div total pageSize ∧
    (∀ docs, r = Ok docs → n = ceil_div total pageSize).
Proof.
  unfold listDocuments. rewrite run_try_catch.
  match goal with |- match ?body with _ => _ end = _ → _ =>
    destruct body as [w1 r1] eqn:Hbody end.
  intros Hr Hevs Hcount.
  assert (Hlookups : ∀ evs0 : list (Event H),
            Forall (λ ev, ∃ resp, ev = EvGetCollection setId resp) evs0 →
            page_requests evs0 = [] ∧ EvCount collection (Resolved total) ∉ evs0).
  { induction 1 as [|ev evs0 [resp ->] _ [IH1 IH2]]; [split; [done|by intros ?%elem_of_nil]|].
    split; [done|]. by intros [?|?]%elem_of_cons. }
  apply run_bind in Hbody
    as [(w0 & c & Hres & Hbody) | [(message & Hres & ->) | [Hres ->]]];
    apply run_resolve_events in Hres as (evs0 & Hi0 & _ & _ & Hevs0); try done.
  2,3: injection Hr as <- <-; rewrite Hi0 in Hevs; apply app_inv_head in Hevs as <-;
    by destruct (Hlookups _ Hevs0) as [_ ?].
  apply listing_trace in Hbody as (resp & pages & n & Hi & _ & _ & _ & Hgets & Hreq & Hn).
  assert (w1 = w' ∧ ∀ docs, r = Ok docs → r1 = Ok docs) as [<- Hok].
  { destruct r1; injection Hr as <- <-; by split. }
  rewrite Hi, Hi0, <- app_assoc in Hevs. apply app_inv_head in Hevs as <-.
  destruct (Hlookups _ Hevs0) as [Hnone Hnot].
  apply elem_of_app in Hcount as [?|Hcount]; [done|].
  apply elem_of_cons in Hcount as [[= <- <-]|Hcount].
  2:{ rewrite Forall_forall in Hgets. by specialize (Hgets _ Hcount). }
  exists n. destruct (Hn total eq_refl) as [Hle Heq]. split_and!; try done.
  - unfold page_requests in *. by rewrite omap_app, Hnone.
  - intros docs Hdocs. by eapply Heq, Hok.
Qed.

(** A successful search has made one query, for the one embedding given,
    asking for [limit] results, 10 when [limit] is not given, with
    documents, metadata and distances; and answers one hit for each id of
    the first row of the response, in that order, with the metadata
    reported for it, or none, reconstructed. *)
Theorem searchDocuments_makes_one_query setId queryEmbedding limit filters w w' found evs :
  searchDocuments setId queryEmbedding limit filters w = (w', Ok found) →
  issued w' = issued w ++ evs →
  ∃ req results,
    queried evs = [req] ∧
    queryEmbeddings req = [queryEmbedding] ∧
    nResults req = default 10 limit ∧
    include req = ["documents"; "metadatas"; "distances"] ∧
    (∃ evs0 collection, evs = evs0 ++ [EvQuery collection req (Resolved results)]) ∧
    sr_id <$> found = default [] (q_ids results !! 0) ∧
    ∀ index h, found !! index = Some h →
      sr_metadata h = reconstruct_metadata (default ∅ (cell (q_metadatas results) index)).
Proof.
  intros (evs' & Hi & _ & Hreqs & Hok)%run_searchDocuments Hevs.
  rewrite Hi in Hevs. apply app_inv_head in Hevs as <-.
  destruct (Hok found eq_refl) as (results & Hq & (evs0 & collection & req & ->) & ->).
  exists (query_request queryEmbedding (default 10 limit) filters), results.
  assert (req = query_request queryEmbedding (default 10 limit) filters) as ->.
  { rewrite Forall_forall in Hreqs. apply Hreqs. unfold queried. rewrite omap_app.
    apply elem_of_app. right. by left. }
  split_and!; try done.
  - by eexists _, _.
  - unfold hits. destruct (q_ids results !! 0) as [ids|]; [|done]. simpl.
    apply list_eq. intros i. rewrite list_lookup_fmap, list_lookup_imap.
    by destruct (ids !! i).
  - by intros index h (ids & id & _ & _ & ->)%lookup_hits.
Qed.

(** Once the set is deleted, the next call of [listDocuments],
    [addDocuments] or [searchDocuments] on it starts by asking the backend
    for the collection again. *)
Theorem deleted_set_is_asked_for_again
    setId documents queryEmbedding limit filters w w1 :
  deleteDocumentSet setId w = (w1, Ok ()) →
  (∀ w2 r evs, listDocuments setId w1 = (w2, r) → issued w2 = issued w1 ++ evs →
     ∃ resp evs', evs = EvGetCollection setId resp :: evs') ∧
  (∀ w2 r evs, addDocuments setId documents w1 = (w2, r) → issued w2 = issued w1 ++ evs →
     ∃ resp evs', evs = EvGetCollection setId resp :: evs') ∧
  (∀ w2 r evs, searchDocuments setId queryEmbedding limit filters w1 = (w2, r) →
     issued w2 = issued w1 ++ evs →
     ∃ resp evs', evs = EvGetCollection setId resp :: evs').
Proof.
  unfold deleteDocumentSet. rewrite run_try_catch.
  unfold mbind, M_bind, perform, collections_delete.
  destruct (client_deleteCollection setId (backend w)) as [b [[]|message]]; simpl; [|done].
  intros [= <-].
  split_and!; intros w2 r evs Hrun Hevs.
  1: apply listDocuments_trace in Hrun as (evs' & Hi & Hone & _).
  2: apply addDocuments_trace in Hrun as (evs' & Hi & Hone & _).
  3: apply searchDocuments_trace in Hrun as (evs' & Hi & Hone & _).
  all: rewrite Hi in Hevs; apply app_inv_head in Hevs as <-.
  all: unfold uses_one_handle in Hone; simpl in Hone; rewrite lookup_delete_eq in Hone.
  all: destruct Hone as (resp & evs'' & -> & _); by eauto.
Qed.

(** After [createDocumentSet], the calls of [addDocuments],
    [listDocuments] and [searchDocuments] on the new set go to the handle
    that the backend gave, without asking for it. *)
Theorem created_set_is_used_without_asking
    name description documents queryEmbedding limit filters w w1 set :
  createDocumentSet name description w = (w1, Ok set) →
  ∃ collection,
    collections w1 !! name = Some collection ∧
    (∀ w2 r evs, addDocuments name documents w1 = (w2, r) → issued w2 = issued w1 ++ evs →
       Forall (on_handle collection) evs) ∧
    (∀ w2 r evs, listDocuments name w1 = (w2, r) → issued w2 = issued w1 ++ evs →
       Forall (on_handle collection) evs) ∧
    (∀ w2 r evs, searchDocuments name queryEmbedding limit filters w1 = (w2, r) →
       issued w2 = issued w1 ++ evs →
       Forall (on_handle collection) evs).
Proof.
  unfold createDocumentSet. rewrite run_try_catch.
  unfold mbind, M_bind, new_Date_toISOString, perform, collections_set, new_Date, mret, M_ret.
  simpl. destruct (client_createCollection _ _ (backend w)) as [b [collection|message]]; simpl;
    [|done].
  intros [= <- _]. exists collection. simpl. rewrite lookup_insert_eq. split; [done|].
  split_and!; intros w2 r evs Hrun Hevs.
  1: apply addDocuments_trace in Hrun as (evs' & Hi & Hone & _).
  2: apply listDocuments_trace in Hrun as (evs' & Hi & Hone & _).
  3: apply searchDocuments_trace in Hrun as (evs' & Hi & Hone & _).
  all: rewrite Hi in Hevs; apply app_inv_head in Hevs as <-.
  all: unfold uses_one_handle in Hone; simpl in Hone; rewrite lookup_insert_eq in Hone.
  all: by destruct Hone.
Qed.
End Traces.

(** * Examples

    The theorems above on runs of the methods over the in-memory backend,
    and the inputs on which a property as first stated fails. *)

#[local] Existing Instances memory_host example_conversions.

Example split_comma_example : split_comma "a,,b c," = ["a"; ""; "b c"; ""].
Proof. reflexivity. Qed.

Example trim_example : trim (String "009" " a b  ") = "a b".
Proof. reflexivity. Qed.

Example shape_example :
  map_to_list (shape_metadata (chunk_of "doc1" 1))
  = [("keywords", VStr ""); ("source_file", VStr "doc1.md"); ("category", VStr "");
     ("chunk_index", VNum 1); ("document_id", VStr "doc1");
     ("document_type", VStr "unknown")].
Proof. vm_compute. reflexivity. Qed.

Example reconstruct_example :
  prop (reconstruct_metadata
          (shape_metadata (<["keywords" := VArr [VStr "a"; VStr " b "; VStr "c,d"; VStr " "]]> ∅)))
       "keywords"
  = VArr [VStr "a"; VStr "b"; VStr "c"; VStr "d"].
Proof. vm_compute. reflexivity. Qed.

Lemma listDocuments_lists_each_document_once_witness :
  let w := fresh_world manuals_store in
  let docs := [
    {| ld_id := "doc1"; ld_source_file := "doc1.md"; ld_mime_type := "text/plain";
       ld_size_bytes := 0; ld_created_at := "2025-01-01T00:00:00.000Z" |};
    {| ld_id := "doc2"; ld_source_file := "doc2.md"; ld_mime_type := "text/plain";
       ld_size_bytes := 0; ld_created_at := "2025-01-01T00:00:01.000Z" |};
    {| ld_id := "doc3"; ld_source_file := "unknown"; ld_mime_type := "text/plain";
       ld_size_bytes := 0; ld_created_at := "2025-01-01T00:00:02.000Z" |} ] in
  listDocuments "manuals" w = ((listDocuments "manuals" w).1, Ok docs) ∧
  NoDup (ld_id <$> docs).
Proof.
  intros w docs.
  assert (Hrun : listDocuments "manuals" w = ((listDocuments "manuals" w).1, Ok docs))
    by (vm_compute; reflexivity).
  split; [exact Hrun|].
  destruct (listDocuments_lists_each_document_once "manuals" w _ docs Hrun)
    as (evs & positions & _ & _ & _ & _ & Hnodup).
  exact Hnodup.
Defined.

Lemma listDocuments_of_an_empty_set_witness :
  let w := fresh_world empty_store in
  let evs := [EvGetCollection "manuals" (Resolved "manuals"); EvCount "manuals" (Resolved 0)] in
  let w' := {| collections := {["manuals" := "manuals"]}; backend := empty_store;
               issued := evs; clock_reads := 0 |} in
  listDocuments "manuals" w = (w', Ok []) ∧
  Forall (λ ev, is_page_fetch ev = false) evs.
Proof.
  intros w evs w'.
  assert (Hrun : listDocuments "manuals" w = (w', Ok [])) by (vm_compute; reflexivity).
  split; [exact Hrun|].
  apply (listDocuments_of_an_empty_set "manuals" w w' (Ok []) evs "manuals" Hrun eq_refl).
  right. left.
Defined.

Lemma addDocuments_issues_consecutive_batches_witness :
  let w := fresh_world empty_store in
  let run := addDocuments "manuals" sample_documents w in
  run = (run.1, Ok ()) ∧
  ceil_div (length sample_documents) batchSize = 3 ∧
  ∃ evs, issued run.1 = issued w ++ evs ∧
         length (added evs) = ceil_div (length sample_documents) batchSize ∧
         concat (add_ids ∘ fst <$> added evs) = doc_id <$> sample_documents.
Proof.
  intros w run.
  assert (Hr : run.2 = Ok ()) by (vm_compute; reflexivity).
  assert (Hrun : run = (run.1, Ok ())) by (rewrite <- Hr; apply surjective_pairing).
  split; [exact Hrun|]. split; [vm_compute; reflexivity|].
  destruct (addDocuments_issues_consecutive_batches "manuals" sample_documents w run.1 Hrun)
    as (evs & Hi & Hlen & _ & _ & Hids & _).
  exists evs. split; [exact Hi|]. split; [exact Hlen|exact Hids].
Defined.

Lemma addDocuments_stops_at_the_rejected_batch_witness :
  let w := fresh_world (rejecting_store 1) in
  let run := addDocuments "manuals" sample_documents w in
  ∃ req,
    added (issued run.1) !! 1 = Some (req, Rejected "quota exceeded") ∧
    req = add_request (batch_at sample_documents 1) ∧
    length (added (issued run.1)) = 2 ∧
    run.2 = Thrown "Failed to add documents: quota exceeded".
Proof.
  intros w run.
  assert (Hresp : snd <$> added (issued run.1) !! 1 = Some (Rejected "quota exceeded"))
    by (vm_compute; reflexivity).
  destruct (added (issued run.1) !! 1) as [[req resp]|] eqn:Hk; [|discriminate Hresp].
  injection Hresp as ->. exists req. split; [reflexivity|].
  destruct (addDocuments_stops_at_the_rejected_batch "manuals" sample_documents w
              run.1 run.2 (issued run.1) 1 req "quota exceeded")
    as (_ & Hreq & Hlen & Hr); [apply surjective_pairing | reflexivity | exact Hk |].
  split; [exact Hreq|]. split; [exact Hlen|exact Hr].
Defined.

(** C6, as stated, fails: the error does not tell which batch was
    rejected. Rejecting the first batch and rejecting the second give the
    same error. *)
Lemma the_error_does_not_tell_the_batch :
  ¬ ∃ index_of : outcome () → nat,
      ∀ k_rejected k req message,
        let run := addDocuments "manuals" sample_documents
                     (fresh_world (rejecting_store k_rejected)) in
        added (issued run.1) !! k = Some (req, Rejected message) →
        index_of run.2 = k.
Proof.
  intros [index_of Hindex].
  pose (run0 := addDocuments "manuals" sample_documents (fresh_world (rejecting_store 0))).
  pose (run1 := addDocuments "manuals" sample_documents (fresh_world (rejecting_store 1))).
  assert (Hresp0 : snd <$> added (issued run0.1) !! 0 = Some (Rejected "quota exceeded"))
    by (vm_compute; reflexivity).
  assert (Hresp1 : snd <$> added (issued run1.1) !! 1 = Some (Rejected "quota exceeded"))
    by (vm_compute; reflexivity).
  assert (Hsame : run0.2 = run1.2) by (vm_compute; reflexivity).
  destruct (added (issued run0.1) !! 0) as [[req0 resp0]|] eqn:Hk0; [|discriminate Hresp0].
  destruct (added (issued run1.1) !! 1) as [[req1 resp1]|] eqn:Hk1; [|discriminate Hresp1].
  injection Hresp0 as ->. injection Hresp1 as ->.
  pose proof (Hindex 0 0 req0 _ Hk0) as H0. pose proof (Hindex 1 1 req1 _ Hk1) as H1.
  fold run0 in H0. fold run1 in H1. simpl in H0, H1. rewrite Hsame in H0. congruence.
Qed.


Lemma similarity_is_one_minus_distance_witness :
  let w := fresh_world (answering_store two_hits) in
  let run := searchDocuments "manuals" [0.5%float] None None w in
  ∃ found h,
    run = (run.1, Ok found) ∧ found !! 0 = Some h ∧
    (∀ results, (∃ evs collection req,
                   issued run.1 = issued w ++ evs ++ [EvQuery collection req (Resolved results)]) →
                cell (q_distances results) 0 = Some 0.2%float → sr_similarity h = 0.8%float).
Proof.
  intros w run.
  assert (Hfound : run.2 = Ok (hits two_hits)) by (vm_compute; reflexivity).
  exists (hits two_hits), (hit two_hits 0 "chunk-0").
  assert (Hrun : run = (run.1, Ok (hits two_hits)))
    by (rewrite <- Hfound; apply surjective_pairing).
  split; [exact Hrun|]. split; [reflexivity|].
  destruct (similarity_is_one_minus_distance "manuals" [0.5%float] None None w run.1
              (hits two_hits) 0 (hit two_hits 0 "chunk-0") Hrun eq_refl)
    as [(evs & collection & req & results & Hi & Hsim & _) _].
  intros results' (evs' & collection' & req' & Hi') Hd.
  rewrite Hi in Hi'. apply app_inv_head in Hi'.
  apply app_inj_tail in Hi' as [_ [= _ _ <-]].
  by rewrite (Hsim _ Hd).
Defined.

Lemma missing_distance_gives_similarity_one_witness :
  let w := fresh_world (answering_store two_hits) in
  let run := searchDocuments "manuals" [0.5%float] None None w in
  ∃ found h,
    run = (run.1, Ok found) ∧ found !! 1 = Some h ∧
    (∀ results, (∃ evs collection req,
                   issued run.1 = issued w ++ evs ++ [EvQuery collection req (Resolved results)]) →
                cell (q_distances results) 1 = None → sr_similarity h = 1%float).
Proof.
  intros w run.
  assert (Hfound : run.2 = Ok (hits two_hits)) by (vm_compute; reflexivity).
  exists (hits two_hits), (hit two_hits 1 "chunk-1").
  assert (Hrun : run = (run.1, Ok (hits two_hits)))
    by (rewrite <- Hfound; apply surjective_pairing).
  split; [exact Hrun|]. split; [reflexivity|].
  destruct (missing_distance_gives_similarity_one "manuals" [0.5%float] None None w run.1
              (hits two_hits) 1 (hit two_hits 1 "chunk-1") Hrun eq_refl)
    as (evs & collection & req & results & Hi & Hnone & _).
  intros results' (evs' & collection' & req' & Hi') Hd.
  rewrite Hi in Hi'. apply app_inv_head in Hi'.
  apply app_inj_tail in Hi' as [_ [= _ _ <-]].
  by apply Hnone.
Defined.

(** C5, as stated, fails on a distance just below 0: it is outside the
    interval from 0 to 1, and the similarity is exactly 1. *)
Lemma tiny_negative_distance_gives_similarity_one :
  let d := (-1e-300)%float in
  let w := fresh_world (answering_store (answer_with_distances [Some d])) in
  ∃ h, (searchDocuments "manuals" [0.5%float] None None w).2 = Ok [h] ∧
       outside_unit d = true ∧
       sr_similarity h = 1%float ∧ outside_unit (sr_similarity h) = false.
Proof.
  intros d w. exists (hit (answer_with_distances [Some d]) 0 "chunk-0").
  split_and!; vm_compute; reflexivity.
Qed.

Lemma reproducible_fields_round_trip_witness :
  reproducible "keywords" (prop sample_metadata "keywords") = true ∧
  prop (reconstruct_metadata (@shape_metadata example_conversions sample_metadata)) "keywords"
  = prop sample_metadata "keywords".
Proof.
  split; [vm_compute; reflexivity|].
  apply (@reproducible_fields_round_trip example_conversions sample_metadata "keywords").
  vm_compute; reflexivity.
Defined.

Lemma empty_list_reads_back_as_empty_string_witness :
  let md : Obj := <["keywords" := VArr []]> sample_metadata in
  "keywords" ∈ list_fields ∧
  reconstruct_metadata (@shape_metadata example_conversions md) !! "keywords" = Some (VStr "").
Proof.
  intros md. assert (Hk : "keywords" ∈ list_fields) by (by left).
  split; [exact Hk|].
  apply (proj1 (@empty_list_reads_back_as_empty_string example_conversions md ∅ "keywords" Hk)).
  vm_compute; reflexivity.
Defined.

(** C1, as stated, fails on a record whose [keywords] is the empty list:
    no element has a comma or is white space, and [keywords] reads back as
    the empty string. *)
Lemma empty_keywords_do_not_round_trip :
  let md : Obj := <["keywords" := VArr []]> sample_metadata in
  ¬ ((∀ k, k ∈ list_fields → delimiter_free (prop md k) = true) →
     ∀ k, k ∈ metadata_fields →
       prop (reconstruct_metadata (@shape_metadata example_conversions md)) k = prop md k).
Proof.
  intros md Hclaim.
  assert (Hpre : ∀ k, k ∈ list_fields → delimiter_free (prop md k) = true).
  { intros k Hk. unfold list_fields, optional_list_fields in Hk. fields Hk; vm_compute; reflexivity. }
  specialize (Hclaim Hpre "keywords"). 
  assert (Hin : "keywords" ∈ metadata_fields) by (unfold metadata_fields, required_fields; set_solver).
  specialize (Hclaim Hin). vm_compute in Hclaim. discriminate.
Qed.

(** C7, as stated, fails on a record whose [document_id] is the empty
    string: the field is present and a string, and is left out. *)
Lemma empty_document_id_is_left_out :
  let md : Obj := <["document_id" := VStr ""]> sample_metadata in
  ¬ (is_Some (@shape_metadata example_conversions md !! "document_id") ↔
     expected_type "document_id" (prop md "document_id") = true).
Proof.
  intros md [_ Hincl]. destruct Hincl as [v Hv]; [vm_compute; reflexivity|].
  vm_compute in Hv. discriminate.
Qed.
(** ** Examples of the further properties *)

#[local] Existing Instances registry_host registry_lifecycle.

Lemma reconstruct_metadata_gives_clean_lists_witness :
  let metadata : Obj := <["keywords" := VStr " alpha ,, beta"]> (chunk_of "doc1" 0) in
  reconstruct_metadata metadata !! "source_file" = Some (VStr "doc1.md") ∧
  ∃ l, reconstruct_metadata metadata !! "keywords" = Some (VArr (VStr <$> l)) ∧
       l = ["alpha"; "beta"] ∧ Forall (λ e, clean e = true) l.
Proof.
  intros metadata.
  destruct (reconstruct_metadata_gives_clean_lists metadata "source_file") as [Hother _].
  destruct (reconstruct_metadata_gives_clean_lists metadata "keywords") as [_ Hlist].
  split; [exact (Hother eq_refl)|].
  exact (Hlist " alpha ,, beta" eq_refl eq_refl eq_refl).
Defined.

Lemma list_field_reads_back_split_witness :
  let md : Obj := <["keywords" := VArr [VStr "alpha, beta"; VStr ""; VStr " gamma "]]> ∅ in
  "keywords" ∈ list_fields ∧
  prop (reconstruct_metadata (shape_metadata md)) "keywords" =
    VArr [VStr "alpha"; VStr "beta"; VStr "gamma"].
Proof.
  intros md.
  assert (Hk : "keywords" ∈ list_fields) by (vm_compute; repeat constructor).
  split; [exact Hk|].
  exact (list_field_reads_back_split md "keywords" ["alpha, beta"; ""; " gamma "] Hk eq_refl).
Defined.

Lemma reconstructed_list_round_trips_witness :
  let stored : Obj := <["topic_tags" := VStr "alpha, beta,,gamma"]> ∅ in
  let md := reconstruct_metadata stored in
  prop md "topic_tags" = VArr [VStr "alpha"; VStr "beta"; VStr "gamma"] ∧
  prop (reconstruct_metadata (shape_metadata md)) "topic_tags" = prop md "topic_tags".
Proof.
  intros stored md. split; [reflexivity|].
  apply (reconstructed_list_round_trips md stored "topic_tags" "alpha, beta,,gamma").
  - vm_compute. repeat constructor.
  - reflexivity.
  - reflexivity.
  - reflexivity.
  - discriminate.
Defined.

Lemma createDocumentSet_keeps_the_handle_witness :
  let w := registry_world two_sets in
  let run := createDocumentSet "drafts" None w in
  let collection :=
    {| h_name := "drafts";
       h_metadata := Some (<["created_at" := VStr "2025-01-01T00:00:00.000Z"]>
                           (<["description" := VStr ""]> ∅)) |} in
  run.2 = Ok {| ds_id := "drafts"; ds_name := "drafts"; ds_description := VStr "";
                ds_created_at := Date_at 1; ds_document_count := 0 |} ∧
  collections run.1 = <["drafts" := collection]> ∅.
Proof.
  intros w run collection.
  destruct (createDocumentSet_keeps_the_handle "drafts" None w run.1 run.2
              (surjective_pairing run)) as (_ & _ & Hmade).
  exact Hmade.
Defined.

Lemma getDocumentSet_answers_null_on_failure_witness :
  let w := registry_world two_sets in
  let run := getDocumentSet "drafts" w in
  run.2 = Ok None ∧ collections run.1 = ∅.
Proof.
  intros w run.
  assert (Hfirst : issued run.1 !! 0 =
                   Some (EvGetCollection "drafts" (Rejected "Collection drafts does not exist")))
    by (vm_compute; reflexivity).
  destruct (getDocumentSet_answers_null_on_failure "drafts" w run.1 run.2
              (surjective_pairing run))
    as [Hcache [(message & _ & Hr) | [(collection & message & Hi & _) |
                                      (collection & count & set & Hi & _)]]].
  - split; [exact Hr|exact Hcache].
  - rewrite Hi in Hfirst. discriminate Hfirst.
  - rewrite Hi in Hfirst. discriminate Hfirst.
Defined.

Lemma listDocumentSets_lists_every_collection_witness :
  let w := registry_world two_sets in
  let run := listDocumentSets w in
  ∃ sets,
    run.2 = Ok sets ∧
    ds_id <$> sets = ["manuals"; "notes"] ∧
    ds_document_count <$> sets = [5; 0] ∧
    ds_description <$> sets = [VStr "User manuals"; VStr ""].
Proof.
  intros w run.
  assert (Hsome : ∃ sets, run.2 = Ok sets).
  { assert (Hok : match run.2 with Ok _ => true | _ => false end = true)
      by (vm_compute; reflexivity).
    destruct run.2 as [sets| |]; try discriminate Hok. exists sets. reflexivity. }
  destruct Hsome as [sets Hr]. exists sets. split; [exact Hr|].
  assert (Hrun : run = (run.1, Ok sets)) by (rewrite <- Hr; apply surjective_pairing).
  destruct (listDocumentSets_lists_every_collection w run.1 sets Hrun)
    as (cols & counts & Hcols & Hlen & Hi & Hsets).
  injection Hcols as <-.
  assert (Hcounts : (λ ev, match ev with EvCount _ (Resolved n) => n | _ => 0 end)
                      <$> issued run.1 = [5; 0]) by (vm_compute; reflexivity).
  rewrite Hi in Hcounts.
  destruct counts as [|c1 [|c2 [|]]]; try discriminate Hlen.
  injection Hcounts as -> ->.
  cbn [zip zip_with] in Hsets.
  apply Forall2_cons_inv_r in Hsets as (set1 & sets1 & (Hid1 & _ & Hn1 & Hd1) & Hsets & ->).
  apply Forall2_cons_inv_r in Hsets as (set2 & sets2 & (Hid2 & _ & Hn2 & Hd2) & Hsets & ->).
  apply Forall2_nil_inv_r in Hsets as ->.
  simpl. rewrite Hid1, Hid2, Hn1, Hn2, Hd1, Hd2. split_and!; reflexivity.
Defined.

Lemma listDocumentSets_passes_count_failures_on_witness :
  let w := registry_world registry_down in
  let run := listDocumentSets w in
  ∃ x, run.2 = Thrown x ∧
       x = "Failed to list document sets: connection refused" ∧ issued run.1 = [].
Proof.
  intros w run.
  assert (Hsome : ∃ x, run.2 = Thrown x).
  { assert (Hthrown : match run.2 with Thrown _ => true | _ => false end = true)
      by (vm_compute; reflexivity).
    destruct run.2 as [|x|]; try discriminate Hthrown. exists x. reflexivity. }
  destruct Hsome as [x Hr]. exists x. split; [exact Hr|].
  assert (Hrun : run = (run.1, Thrown x)) by (rewrite <- Hr; apply surjective_pairing).
  exact (listDocumentSets_passes_count_failures_on w run.1 x Hrun).
Defined.

Lemma deleteDocument_deletes_one_id_witness :
  let w := registry_world two_sets in
  let run := deleteDocument "manuals" "c2" w in
  ∃ collection,
    collections run.1 !! "manuals" = Some collection ∧
    backend run.1 = (collection_delete collection ["c2"] two_sets).1 ∧
    run.2 = Ok ().
Proof.
  intros w run.
  destruct (deleteDocument_deletes_one_id "manuals" "c2" w run.1 run.2 (surjective_pairing run))
    as [(w1 & collection & Hres & Hc & _ & Hb & Hr) | (message & Hres & _)].
  - injection Hres as <- <-. exists (st_handle (hd {| st_handle := {| h_name := ""; h_metadata := None |}; st_records := [] |} (reg_sets two_sets))).
    split; [rewrite Hc; reflexivity|]. split; [exact Hb|exact Hr].
  - discriminate Hres.
Defined.

Lemma deleteDocumentSet_forgets_the_handle_witness :
  let manuals := {| h_name := "manuals"; h_metadata := None |} in
  let notes := {| h_name := "notes"; h_metadata := None |} in
  let w := {| collections := <["manuals" := manuals]> (<["notes" := notes]> ∅);
              backend := two_sets; issued := []; clock_reads := 0 |} in
  let run := deleteDocumentSet "manuals" w in
  run.2 = Ok () ∧ collections run.1 = delete "manuals" (collections w) ∧
  collections run.1 !! "manuals" = None ∧ collections run.1 !! "notes" = Some notes.
Proof.
  intros manuals notes w run.
  destruct (deleteDocumentSet_forgets_the_handle "manuals" w run.1 run.2
              (surjective_pairing run)) as (_ & _ & Hr & Hc).
  split; [exact Hr|]. split; [exact Hc|]. rewrite Hc. split; reflexivity.
Defined.

Lemma listDocuments_one_handle_and_first_failure_witness :
  let w := registry_world two_sets in
  let run := listDocuments "drafts" w in
  issued run.1 = [EvGetCollection "drafts" (Rejected "Collection drafts does not exist")] ∧
  run.2 = Thrown "Failed to list documents: Collection drafts does not exist" ∧
  collections run.1 = ∅.
Proof.
  intros w run.
  assert (Hfirst : issued run.1 !! 0 =
                   Some (EvGetCollection "drafts" (Rejected "Collection drafts does not exist")))
    by (vm_compute; reflexivity).
  destruct (listDocuments_one_handle_and_first_failure "drafts" w run.1 run.2 (issued run.1)
              (surjective_pairing run) eq_refl) as [(resp & evs & Hevs & Hresp) _].
  rewrite Hevs in Hfirst. injection Hfirst as ->.
  destruct Hresp as (Hc & -> & Hr). split; [exact Hevs|]. split; [exact Hr|exact Hc].
Defined.

Lemma addDocuments_one_handle_and_first_failure_witness :
  let w := registry_world two_sets in
  let run := addDocuments "notes" (take 3 sample_documents) w in
  let notes := {| h_name := "notes"; h_metadata := None |} in
  run.2 = Ok () ∧
  collections run.1 = <["notes" := notes]> ∅ ∧
  Forall (λ ev, resolved ev = true) (issued run.1) ∧
  ∃ evs, issued run.1 = EvGetCollection "notes" (Resolved notes) :: evs ∧
         Forall (on_handle notes) evs.
Proof.
  intros w run notes.
  assert (Hfirst : issued run.1 !! 0 = Some (EvGetCollection "notes" (Resolved notes)))
    by (vm_compute; reflexivity).
  assert (Hr : run.2 = Ok ()) by (vm_compute; reflexivity).
  destruct (addDocuments_one_handle_and_first_failure "notes" (take 3 sample_documents)
              w run.1 run.2 (issued run.1) (surjective_pairing run) eq_refl)
    as [(resp & evs & Hevs & Hresp) Hff].
  rewrite Hr in Hff.
  rewrite Hevs in Hfirst. injection Hfirst as ->. destruct Hresp as [Hc Hon].
  split; [exact Hr|]. split; [exact Hc|]. split; [exact Hff|].
  exists evs. split; [exact Hevs|exact Hon].
Defined.

Lemma searchDocuments_one_handle_and_first_failure_witness :
  let w := registry_world registry_down in
  let run := searchDocuments "manuals" [0.5%float] None None w in
  issued run.1 = [EvGetCollection "manuals" (Rejected "connection refused")] ∧
  run.2 = Thrown "Failed to search documents: connection refused".
Proof.
  intros w run.
  assert (Hfirst : issued run.1 !! 0 =
                   Some (EvGetCollection "manuals" (Rejected "connection refused")))
    by (vm_compute; reflexivity).
  destruct (searchDocuments_one_handle_and_first_failure "manuals" [0.5%float] None None
              w run.1 run.2 (issued run.1) (surjective_pairing run) eq_refl)
    as [(resp & evs & Hevs & Hresp) _].
  rewrite Hevs in Hfirst. injection Hfirst as ->.
  destruct Hresp as (_ & -> & Hr). split; [exact Hevs|exact Hr].
Defined.

Lemma listDocuments_fetches_pages_in_order_witness :
  let w := fresh_world {| ms_metadatas := replicate 1001 (chunk_of "doc1" 0);
                          ms_adds := 0; ms_reject := None; ms_answer := no_answer |} in
  let run := listDocuments "manuals" w in
  ceil_div 1001 pageSize = 3 ∧
  page_requests (issued run.1) = [(500, 0); (500, 500); (500, 1000)].
Proof.
  intros w run. split; [vm_compute; reflexivity|].
  assert (Hcount : issued run.1 !! 1 = Some (EvCount "manuals" (Resolved 1001)))
    by (vm_compute; reflexivity).
  assert (Hsome : ∃ docs, run.2 = Ok docs).
  { assert (Hok : match run.2 with Ok _ => true | _ => false end = true)
      by (vm_compute; reflexivity).
    destruct run.2 as [docs| |]; try discriminate Hok. exists docs. reflexivity. }
  destruct Hsome as [docs Hr].
  destruct (listDocuments_fetches_pages_in_order "manuals" w run.1 run.2 (issued run.1)
              "manuals" 1001 (surjective_pairing run) eq_refl)
    as (n & Hreq & _ & Hn).
  - exact (list_elem_of_lookup_2 _ 1 _ Hcount).
  - rewrite (Hn docs Hr) in Hreq. exact Hreq.
Defined.

Lemma searchDocuments_makes_one_query_witness :
  let w := fresh_world (answering_store two_hits) in
  let run := searchDocuments "manuals" [0.5%float] None None w in
  ∃ found req,
    run.2 = Ok found ∧
    queried (issued run.1) = [req] ∧
    queryEmbeddings req = [[0.5%float]] ∧ nResults req = 10 ∧
    sr_id <$> found = ["chunk-0"; "chunk-1"].
Proof.
  intros w run.
  assert (Hsome : ∃ found, run.2 = Ok found).
  { assert (Hok : match run.2 with Ok _ => true | _ => false end = true)
      by (vm_compute; reflexivity).
    destruct run.2 as [found| |]; try discriminate Hok. exists found. reflexivity. }
  destruct Hsome as [found Hr].
  assert (Hrun : run = (run.1, Ok found)) by (rewrite <- Hr; apply surjective_pairing).
  destruct (searchDocuments_makes_one_query "manuals" [0.5%float] None None w run.1 found
              (issued run.1) Hrun eq_refl)
    as (req & results & Hq & Hemb & Hn & _ & (evs0 & collection & Hevs) & Hids & _).
  assert (Hlast : (λ ev, match ev with
                         | EvQuery _ _ (Resolved results) => q_ids results
                         | _ => []
                         end) <$> last (issued run.1) = Some [["chunk-0"; "chunk-1"]])
    by (vm_compute; reflexivity).
  rewrite Hevs, last_snoc in Hlast. injection Hlast as Hlast.
  rewrite Hlast in Hids.
  exists found, req. split; [exact Hr|]. split; [exact Hq|]. split; [exact Hemb|].
  split; [exact Hn|exact Hids].
Defined.

Lemma deleted_set_is_asked_for_again_witness :
  let manuals := {| h_name := "manuals"; h_metadata := None |} in
  let w := {| collections := <["manuals" := manuals]> ∅;
              backend := two_sets; issued := []; clock_reads := 0 |} in
  let deleted := deleteDocumentSet "manuals" w in
  let run := listDocuments "manuals" deleted.1 in
  deleted.2 = Ok () ∧
  ∃ resp evs, issued run.1 = EvGetCollection "manuals" resp :: evs.
Proof.
  intros manuals w deleted run.
  assert (Hr : deleted.2 = Ok ()) by (vm_compute; reflexivity).
  assert (Hrun : deleted = (deleted.1, Ok ())) by (rewrite <- Hr; apply surjective_pairing).
  split; [exact Hr|].
  destruct (deleted_set_is_asked_for_again "manuals" [] [] None None w deleted.1 Hrun)
    as (Hlist & _ & _).
  apply (Hlist run.1 run.2 (issued run.1) (surjective_pairing run)).
  reflexivity.
Defined.

Lemma created_set_is_used_without_asking_witness :
  let w := registry_world two_sets in
  let created := createDocumentSet "drafts" (Some "Drafts") w in
  let run := addDocuments "drafts" (take 3 sample_documents) created.1 in
  ∃ set collection,
    created.2 = Ok set ∧
    collections created.1 !! "drafts" = Some collection ∧
    Forall (on_handle collection) (issued run.1).
Proof.
  intros w created run.
  assert (Hsome : ∃ set, created.2 = Ok set).
  { assert (Hok : match created.2 with Ok _ => true | _ => false end = true)
      by (vm_compute; reflexivity).
    destruct created.2 as [set| |]; try discriminate Hok. exists set. reflexivity. }
  destruct Hsome as [set Hr].
  assert (Hrun : created = (created.1, Ok set)) by (rewrite <- Hr; apply surjective_pairing).
  destruct (created_set_is_used_without_asking "drafts" (Some "Drafts") (take 3 sample_documents)
              [] None None w created.1 set Hrun) as (collection & Hc & Hadd & _ & _).
  exists set, collection. split; [exact Hr|]. split; [exact Hc|].
  apply (Hadd run.1 run.2 (issued run.1) (surjective_pairing run)). reflexivity.
Defined.
